(** * A shallow embedding of the [shell] command runner

    The repository is a thin wrapper around Node's [child_process]: one entry
    point [shell(command, options)] dispatching to a blocking runner
    ([shellSync]) or to an event-driven one ([shellAsync]), and one error
    class ([ShellError]).  Two revisions of the module are embedded:

    - [V1]: [src/src/index.ts], the revision with the [prefix] option;
    - [V2]: [src/unnamed/part_000], the revision with [nopipe], [silent],
      [transform] and the injectable [spawn] / [execSync] / [parentProcess].

    JavaScript strings are [string]s, environments are [gmap string string],
    the promise is a three-state cell settled at most once, and the child
    process is the list of events the event loop delivers to the handlers that
    [shellAsync] registered. *)

From Stdlib Require Import ZArith Ascii String List Bool Lia DecimalString.
From stdpp Require Import base gmap strings list.
Import ListNotations.

Local Open Scope Z_scope.

(** ** The JavaScript primitives the module relies on *)

Module Js.

(** The line feed, written ["\n"] in the source. *)
Definition LF : ascii := "010"%char.

(** Truthiness of a string: only the empty string is falsy. *)
Definition truthy_string (s : string) : bool :=
  match s with
  | EmptyString => false
  | String _ _ => true
  end.

(** Truthiness of a number (integers only: [0] is the falsy one). *)
Definition truthy_number (n : Z) : bool := negb (n =? 0).

(** Truthiness of an optional property: [undefined] is falsy. *)
Definition truthy_opt {A : Type} (truthy : A -> bool) (x : option A) : bool :=
  match x with
  | Some a => truthy a
  | None => false
  end.

Definition truthy_bool (b : bool) : bool := b.

(** [s.split(sep)] for a one-character separator; the array is never
    empty. *)
Fixpoint split (sep : ascii) (s : string) : list string :=
  match s with
  | EmptyString => [EmptyString]
  | String c rest =>
      if Ascii.eqb c sep then EmptyString :: split sep rest
      else match split sep rest with
           | [] => [String c EmptyString]
           | piece :: pieces => String c piece :: pieces
           end
  end.

(** [s.startsWith(p)] and [s.includes(sub)]. *)
Fixpoint startsWith (s p : string) : bool :=
  match p, s with
  | EmptyString, _ => true
  | String _ _, EmptyString => false
  | String a p', String b s' => Ascii.eqb a b && startsWith s' p'
  end.

Fixpoint includes (s sub : string) : bool :=
  startsWith s sub ||
  match s with
  | EmptyString => false
  | String _ s' => includes s' sub
  end.

(** Template-literal conversion of an integer number: its decimal
    digits, with a leading minus sign when negative. *)
Definition Number_toString (n : Z) : string :=
  NilEmpty.string_of_int (Z.to_int n).

(** The characters of a string. *)
Definition chars (s : string) : list ascii := list_ascii_of_string s.

(** Specification-level counterparts of [includes] and [startsWith]. *)
Definition contains (s sub : string) : Prop :=
  exists before after, s = before +:+ sub +:+ after.

Definition begins_with (s p : string) : Prop :=
  exists rest, s = p +:+ rest.

Definition single_line (s : string) : Prop := ~ In LF (chars s).

(** The first line of a text in the words of the specification: the part up
    to, and excluding, the first line feed; the whole text when it has
    none. *)
Fixpoint first_line (s : string) : string :=
  match s with
  | EmptyString => EmptyString
  | String c rest => if Ascii.eqb c LF then EmptyString else String c (first_line rest)
  end.

End Js.

(** ** The error class

    Both revisions build the message the same way; the later one also sets
    the [name] property. *)

Record ShellError := { name : string; message : string }.

Module V1Error.
(** [src/src/index.ts], class [ShellError]:
    [message = message && message.split("\n")[0]; super(message)]. *)
Definition new_ShellError (message : string) : ShellError :=
  let message :=
    if Js.truthy_string message
    then nth 0 (Js.split Js.LF message) EmptyString
    else message in
  {| name := "Error"; message := message |}.
End V1Error.

Module V2Error.
(** [src/unnamed/part_000], class [ShellError]: as above, then
    [this.name = "ShellError"]. *)
Definition new_ShellError (message : string) : ShellError :=
  let message :=
    if Js.truthy_string message
    then nth 0 (Js.split Js.LF message) EmptyString
    else message in
  {| name := "ShellError"; message := message |}.
End V2Error.

(** ** The part of Node's [child_process] and [process] API the module uses *)

Abbreviation ProcessEnv := (gmap string string).

Module Node.

(** A [Buffer] is a sequence of bytes. *)
Definition Buffer : Type := list Byte.byte.

(** One entry of [StdioOptions], in its string form. *)
Inductive StdioMode := Pipe | Inherit | Ignore.

(** [StdioOptions]: one string for all three streams, or an array with an
    entry per file descriptor. *)
Inductive StdioOptions :=
| StdioString (mode : StdioMode)
| StdioArray (modes : list StdioMode).

Definition is_pipe (m : StdioMode) : bool :=
  match m with Pipe => true | _ => false end.

(** The disposition of file descriptor [fd]; an entry missing from the array
    takes the default, which for the three standard streams is a pipe. *)
Definition disposition (stdio : StdioOptions) (fd : nat) : StdioMode :=
  match stdio with
  | StdioString mode => mode
  | StdioArray modes => nth fd modes Pipe
  end.

Record SpawnOptions := {
  spawn_cwd : option string;
  spawn_env : ProcessEnv;
  spawn_shell : bool;
  spawn_stdio : StdioOptions
}.

Record ExecSyncOptions := {
  exec_cwd : option string;
  exec_env : ProcessEnv;
  exec_stdio : StdioOptions;
  exec_timeout : option Z
}.

(** What the runner reads of a [ChildProcess]: whether its [stdout] and
    [stderr] properties are streams or [null]. *)
Record ChildProcess := { stdout : bool; stderr : bool }.

(** [child_process.spawn]: a stream property is non-null exactly when the
    stream is piped. *)
Definition spawn (command : string) (options : SpawnOptions) : ChildProcess :=
  {| stdout := is_pipe (disposition (spawn_stdio options) 1);
     stderr := is_pipe (disposition (spawn_stdio options) 2) |}.

(** The value [execSync] returns: declared [string | Buffer] in the source;
    it is [null] when the child's standard output is not piped. *)
Inductive ExecValue :=
| BufferValue (buffer : Buffer)
| StringValue (text : string)
| NullValue.

(** [execSync] either returns, or throws an [Error] with a [message] and a
    [status], the exit code of the child when it exited by itself; the
    runner reads the [message] only. *)
Inductive ExecSyncOutcome :=
| Returns (value : ExecValue)
| Throws (error_message : string) (status : option Z).

(** The types of [execSync] and [spawn], for the options that replace
    them. *)
Definition ExecSync : Type := string -> ExecSyncOptions -> ExecSyncOutcome.
Definition Spawn : Type := string -> SpawnOptions -> ChildProcess.

(** What the runner reads of a [NodeJS.Process]: its environment (what is
    written to its [stdout] is recorded by the runner's model). *)
Record Process := { process_env : ProcessEnv }.

(** Truthiness of the returned value: an object (a [Buffer], even an empty
    one) is truthy, a string is truthy unless empty, [null] is falsy. *)
Definition truthy (v : ExecValue) : bool :=
  match v with
  | BufferValue _ => true
  | StringValue text => Js.truthy_string text
  | NullValue => false
  end.

(** The events the event loop delivers for one spawned child: data on its
    standard streams, the ['error'] and ['close'] events of the process
    (with [error.toString()] and the exit code), and the expiry of the timer
    set with [setTimeout]. *)
Inductive Event :=
| StdoutData (chunk : Buffer)
| StderrData (chunk : Buffer)
| ProcessError (error : string)
| ProcessClose (exitCode : Z)
| TimerFired.

End Node.

(** ** The promise returned by the asynchronous runner *)

Inductive Promise :=
| Pending
| Resolved (value : option string)
| Rejected (error : ShellError).

(** [resolve] and [reject] settle a pending promise and do nothing to a
    settled one. *)
Definition resolve (value : option string) (p : Promise) : Promise :=
  match p with
  | Pending => Resolved value
  | _ => p
  end.

Definition reject (error : ShellError) (p : Promise) : Promise :=
  match p with
  | Pending => Rejected error
  | _ => p
  end.

Definition settled (p : Promise) : bool :=
  match p with
  | Pending => false
  | _ => true
  end.

(** ** The body of the promise executor of [shellAsync]

    The handlers registered on the child ([src/src/index.ts] lines 59-97,
    [src/unnamed/part_000] lines 65-96) are the same text in both revisions;
    they differ in where [stdout] comes from and in the prefix pipes, which
    only the first revision has.  [Wiring] records what the executor captured
    in its closures, [Invocation] the mutable part. *)

Module Async.
Import Node.

Record Wiring := {
  command : string;
  (** the [stdout] constant is a stream, so the ['data'] listener is
      attached *)
  stdout_listener : bool;
  (** [Some prefix] when the child's streams are piped through
      [prefixTransformStream(prefix)] into the parent's streams *)
  prefix_pipes : option string;
  (** [options.timeout] is truthy *)
  timeout_set : bool
}.

Record Invocation := {
  promise : Promise;
  (** the [output] variable *)
  output : option string;
  (** calls of [asyncProcess.kill()] so far *)
  kills : nat;
  (** the [setTimeout] callback has not run yet *)
  timer : bool;
  (** chunks written to [process.stdout] and [process.stderr], oldest
      first *)
  process_stdout : list string;
  process_stderr : list string
}.

Section Handlers.
Variable toString : Buffer -> string.
Variable new_ShellError : string -> ShellError.

(** [prefixTransformStream(prefix)]: each chunk is passed on as
    [`${prefix} ${data}`]. *)
Definition prefixTransformStream (prefix : string) (chunk : Buffer) : string :=
  let data := toString chunk in
  prefix +:+ " " +:+ data.

(** The state right after the executor has run. *)
Definition started (w : Wiring) : Invocation :=
  {| promise := Pending; output := None; kills := 0%nat;
     timer := timeout_set w;
     process_stdout := []; process_stderr := [] |}.

Definition on_stdout_data (w : Wiring) (chunk : Buffer) (st : Invocation) : Invocation :=
  let forwarded :=
    match prefix_pipes w with
    | Some prefix => process_stdout st ++ [prefixTransformStream prefix chunk]
    | None => process_stdout st
    end in
  {| promise := promise st;
     output := if stdout_listener w then Some (toString chunk) else output st;
     kills := kills st; timer := timer st;
     process_stdout := forwarded; process_stderr := process_stderr st |}.

Definition on_stderr_data (w : Wiring) (chunk : Buffer) (st : Invocation) : Invocation :=
  let forwarded :=
    match prefix_pipes w with
    | Some prefix => process_stderr st ++ [prefixTransformStream prefix chunk]
    | None => process_stderr st
    end in
  {| promise := promise st; output := output st;
     kills := kills st; timer := timer st;
     process_stdout := process_stdout st; process_stderr := forwarded |}.

Definition with_promise (p : Promise) (st : Invocation) : Invocation :=
  {| promise := p; output := output st; kills := kills st; timer := timer st;
     process_stdout := process_stdout st; process_stderr := process_stderr st |}.

Definition on_error (w : Wiring) (error : string) (st : Invocation) : Invocation :=
  with_promise
    (reject (new_ShellError
               ("Failed to start command: " +:+ command w +:+ "; " +:+ error))
            (promise st)) st.

Definition on_close (w : Wiring) (exitCode : Z) (st : Invocation) : Invocation :=
  if exitCode =? 0 then
    with_promise (resolve (output st) (promise st)) st
  else
    with_promise
      (reject (new_ShellError
                 ("Command failed: " +:+ command w +:+ " with exit code "
                    +:+ Js.Number_toString exitCode))
              (promise st)) st.

Definition on_timeout (w : Wiring) (st : Invocation) : Invocation :=
  if timer st then
    {| promise := reject (new_ShellError ("Command timeout: " +:+ command w))
                         (promise st);
       output := output st;
       kills := S (kills st);
       timer := false;
       process_stdout := process_stdout st;
       process_stderr := process_stderr st |}
  else st.

Definition handle (w : Wiring) (st : Invocation) (ev : Event) : Invocation :=
  match ev with
  | StdoutData chunk => on_stdout_data w chunk st
  | StderrData chunk => on_stderr_data w chunk st
  | ProcessError error => on_error w error st
  | ProcessClose exitCode => on_close w exitCode st
  | TimerFired => on_timeout w st
  end.

(** Running the event loop over the events of one child. *)
Definition run (w : Wiring) (events : list Event) (st : Invocation) : Invocation :=
  fold_left (handle w) events st.

End Handlers.
End Async.

(** ** Observations on the events of a child and on the runner's messages *)

Module Trace.
Import Node.

(** The chunks the child emitted on its standard output, oldest first. *)
Fixpoint stdout_chunks (events : list Event) : list Buffer :=
  match events with
  | [] => []
  | StdoutData chunk :: events => chunk :: stdout_chunks events
  | _ :: events => stdout_chunks events
  end.

(** The chunks the child emitted on its standard error, oldest first. *)
Fixpoint stderr_chunks (events : list Event) : list Buffer :=
  match events with
  | [] => []
  | StderrData chunk :: events => chunk :: stderr_chunks events
  | _ :: events => stderr_chunks events
  end.

(** The events that settle a pending promise: an error, a close, and the
    timer when a timeout is set. *)
Definition settles (timeout_set : bool) (ev : Event) : bool :=
  match ev with
  | ProcessError _ | ProcessClose _ => true
  | TimerFired => timeout_set
  | StdoutData _ | StderrData _ => false
  end.

(** The three message templates of [shellAsync], before [ShellError] cuts
    them at the first line feed. *)
Definition own_message (command raw : string) : Prop :=
  (exists error, raw = "Failed to start command: " +:+ command +:+ "; " +:+ error) \/
  (exists exitCode, raw = "Command failed: " +:+ command +:+ " with exit code "
                            +:+ Js.Number_toString exitCode) \/
  raw = "Command timeout: " +:+ command.

(** A promise that, if rejected, carries one of these messages. *)
Definition own_rejections (new_ShellError : string -> ShellError)
  (command : string) (p : Promise) : Prop :=
  forall e, p = Rejected e ->
            exists raw, e = new_ShellError raw /\ own_message command raw.

End Trace.

(** ** First revision: [src/src/index.ts] *)

Module V1.
Import Node.

Module IShellOptions.
Record t := {
  cwd : option string;
  env : option ProcessEnv;
  stdio : option StdioOptions;
  timeout : option Z;
  prefix : option string;
  shell : option (bool + string);
  async : option bool
}.
End IShellOptions.

Module INormalizedShellOptions.
Record t := {
  cwd : option string;
  env : ProcessEnv;
  stdio : StdioOptions;
  timeout : option Z;
  prefix : option string;
  shell : option (bool + string);
  async : option bool
}.
End INormalizedShellOptions.

(** What [shell] returns: the promise of [shellAsync], given by the wiring of
    its handlers and the state they start from, or the outcome of
    [shellSync] (a thrown [ShellError] or the returned [string | null]). *)
Inductive ShellResult :=
| AsyncResult (w : Async.Wiring) (st : Async.Invocation)
| SyncResult (r : ShellError + option string).

Section Runner.
(** The ambient [process], [execSync] and [Buffer.prototype.toString]. *)
Variable process : Process.
Variable execSync : ExecSync.
Variable toString : Buffer -> string.

(** The [spawnOptions] constant of [shellAsync]; its [stdio] is
    [(options.prefix && "pipe") || options.stdio]. *)
Definition spawnOptions (options : INormalizedShellOptions.t) : SpawnOptions :=
  {| spawn_cwd := INormalizedShellOptions.cwd options;
     spawn_env := INormalizedShellOptions.env options;
     spawn_shell := true;
     spawn_stdio :=
       if Js.truthy_opt Js.truthy_string (INormalizedShellOptions.prefix options)
       then StdioString Pipe
       else INormalizedShellOptions.stdio options |}.

(** The promise executor of [shellAsync], from the child that [spawn]
    returned: the wiring of the handlers it registers and the state they start
    from.  The events handled afterwards are those of that child; a call of
    [spawn] that throws instead of returning a child leaves no child and no
    event, and lies outside what is modelled here. *)
Definition shellAsync (command : string) (options : INormalizedShellOptions.t)
  : Async.Wiring * Async.Invocation :=
  let asyncProcess := spawn command (spawnOptions options) in
  let stdout := Node.stdout asyncProcess in
  let w :=
    {| Async.command := command;
       Async.stdout_listener := stdout;
       Async.prefix_pipes :=
         if Js.truthy_opt Js.truthy_string (INormalizedShellOptions.prefix options)
         then INormalizedShellOptions.prefix options else None;
       Async.timeout_set :=
         Js.truthy_opt Js.truthy_number (INormalizedShellOptions.timeout options) |} in
  (w, Async.started w).

(** [buffer.toString()]; the runner calls it on truthy values only, so never
    on [null]. *)
Definition value_toString (v : ExecValue) : string :=
  match v with
  | BufferValue buffer => toString buffer
  | StringValue text => text
  | NullValue => EmptyString
  end.

(** The [execSyncOptions] constant of [shellSync]. *)
Definition execSyncOptions (options : INormalizedShellOptions.t) : ExecSyncOptions :=
  {| exec_cwd := INormalizedShellOptions.cwd options;
     exec_env := INormalizedShellOptions.env options;
     exec_stdio := INormalizedShellOptions.stdio options;
     exec_timeout := INormalizedShellOptions.timeout options |}.

Definition shellSync (command : string) (options : INormalizedShellOptions.t)
  : ShellError + option string :=
  match execSync command (execSyncOptions options) with
  | Returns buffer =>
      if truthy buffer then inr (Some (value_toString buffer))
      else inr None
  | Throws error_message _ => inl (V1Error.new_ShellError error_message)
  end.

(** The options as [shell] normalizes them. *)
Definition normalize (options : IShellOptions.t) : INormalizedShellOptions.t :=
  {| INormalizedShellOptions.cwd := IShellOptions.cwd options;
     INormalizedShellOptions.env :=
       match IShellOptions.env options with
       | Some env => env
       | None => process_env process
       end ∪ {[ "FORCE_COLOR" := "1" ]};
     INormalizedShellOptions.stdio :=
       match IShellOptions.stdio options with
       | Some stdio => stdio
       | None => StdioString Inherit
       end;
     INormalizedShellOptions.timeout := IShellOptions.timeout options;
     INormalizedShellOptions.prefix := IShellOptions.prefix options;
     INormalizedShellOptions.shell := IShellOptions.shell options;
     INormalizedShellOptions.async := IShellOptions.async options |}.

Definition shell (command : string) (options : IShellOptions.t) : ShellResult :=
  let normalizedOptions := normalize options in
  if Js.truthy_opt Js.truthy_bool (INormalizedShellOptions.async normalizedOptions)
  then let '(w, st) := shellAsync command normalizedOptions in AsyncResult w st
  else SyncResult (shellSync command normalizedOptions).

(** The promise of an asynchronous call after the event loop has
    delivered [events]. *)
Definition settle (command : string) (options : INormalizedShellOptions.t)
  (events : list Event) : Async.Invocation :=
  let '(w, st) := shellAsync command options in
  Async.run toString V1Error.new_ShellError w events st.

End Runner.
End V1.

(** ** Second revision: [src/unnamed/part_000] *)

Module V2.
Import Node.

(** Modelled from the spec: the type [TransformFunction] is declared in
    [./transforms], which is not among the sources; the spec describes the
    option as an output-transform function from text to text. *)
Definition TransformFunction : Type := string -> string.

Module IShellOptions.
Record t := {
  cwd : option string;
  env : option ProcessEnv;
  timeout : option Z;
  async : option bool;
  nopipe : option bool;
  silent : option bool;
  transform : option TransformFunction;
  parentProcess : option Process;
  spawn : option Spawn;
  execSync : option ExecSync
}.
End IShellOptions.

Module INormalizedShellOptions.
Record t := {
  cwd : option string;
  env : ProcessEnv;
  timeout : option Z;
  async : option bool;
  nopipe : option bool;
  silent : option bool;
  transform : option TransformFunction;
  parentProcess : Process;
  spawn : Spawn;
  execSync : ExecSync;
  stdio : list StdioMode
}.
End INormalizedShellOptions.

(** The [{ stdout }] that [setupStdoutStderrStreams] returns: a stream or
    nothing. *)
Record Streams := { stdout : bool }.

(** The outcome of [shellSync]: what it throws or returns, and what it
    wrote to [parentProcess.stdout]. *)
Record SyncOutcome := {
  result : ShellError + option string;
  written : list string
}.

Inductive ShellResult :=
| AsyncResult (w : Async.Wiring) (st : Async.Invocation)
| SyncResult (r : SyncOutcome).

Section Runner.
(** The ambient [process], [execSync] and [Buffer.prototype.toString], and
    the two helpers imported from [./transforms]. *)
Variable process : Process.
Variable execSync : ExecSync.
Variable toString : Buffer -> string.
Variable transformString : TransformFunction -> string -> string.
Variable setupStdoutStderrStreams :
  INormalizedShellOptions.t -> ChildProcess -> Streams.

(** The [spawnOptions] constant of [shellAsync]. *)
Definition spawnOptions (options : INormalizedShellOptions.t) : SpawnOptions :=
  {| spawn_cwd := INormalizedShellOptions.cwd options;
     spawn_env := INormalizedShellOptions.env options;
     spawn_shell := true;
     spawn_stdio := StdioArray (INormalizedShellOptions.stdio options) |}.

(** The promise executor of [shellAsync], from the child that
    [options.spawn] returned and the stream [setupStdoutStderrStreams] made of
    it: the wiring of the handlers it registers and the state they start from.
    The [StdoutData] events handled afterwards are the ['data'] events of the
    stream the helper returned; a call of [spawn] that throws instead of
    returning a child leaves no child and no event, and lies outside what is
    modelled here. *)
Definition shellAsync (command : string) (options : INormalizedShellOptions.t)
  : Async.Wiring * Async.Invocation :=
  let asyncProcess := INormalizedShellOptions.spawn options command (spawnOptions options) in
  let streams := setupStdoutStderrStreams options asyncProcess in
  let w :=
    {| Async.command := command;
       Async.stdout_listener := stdout streams;
       Async.prefix_pipes := None;
       Async.timeout_set :=
         Js.truthy_opt Js.truthy_number (INormalizedShellOptions.timeout options) |} in
  (w, Async.started w).

(** [buffer.toString()]; the runner calls it on truthy values only, so never
    on [null]. *)
Definition value_toString (v : ExecValue) : string :=
  match v with
  | BufferValue buffer => toString buffer
  | StringValue text => text
  | NullValue => EmptyString
  end.

(** The [execSyncOptions] constant of [shellSync]. *)
Definition execSyncOptions (options : INormalizedShellOptions.t) : ExecSyncOptions :=
  {| exec_cwd := INormalizedShellOptions.cwd options;
     exec_env := INormalizedShellOptions.env options;
     exec_stdio := StdioArray (INormalizedShellOptions.stdio options);
     exec_timeout := INormalizedShellOptions.timeout options |}.

Definition shellSync (command : string) (options : INormalizedShellOptions.t)
  : SyncOutcome :=
  match INormalizedShellOptions.execSync options command (execSyncOptions options) with
  | Returns buffer =>
      if truthy buffer then
        let output :=
          match INormalizedShellOptions.transform options with
          | Some transform => transformString transform (value_toString buffer)
          | None => value_toString buffer
          end in
        {| result := inr (Some output);
           written :=
             if Js.truthy_opt Js.truthy_bool (INormalizedShellOptions.silent options)
             then [] else [output] |}
      else {| result := inr None; written := [] |}
  | Throws error_message _ =>
      let message :=
        match INormalizedShellOptions.transform options with
        | Some transform => transformString transform error_message
        | None => error_message
        end in
      {| result := inl (V2Error.new_ShellError message); written := [] |}
  end.

(** The options as [shell] normalizes them. *)
Definition normalize (options : IShellOptions.t) : INormalizedShellOptions.t :=
  let parentProcess :=
    match IShellOptions.parentProcess options with
    | Some p => p
    | None => process
    end in
  let stdio :=
    if Js.truthy_opt Js.truthy_bool (IShellOptions.nopipe options) then
      if Js.truthy_opt Js.truthy_bool (IShellOptions.silent options)
      then [Inherit; Ignore; Ignore]
      else [Inherit; Inherit; Inherit]
    else [Inherit; Pipe; Pipe] in
  {| INormalizedShellOptions.cwd := IShellOptions.cwd options;
     INormalizedShellOptions.env :=
       match IShellOptions.env options with
       | Some env => env
       | None => process_env parentProcess
       end ∪ {[ "FORCE_COLOR" := "1" ]};
     INormalizedShellOptions.timeout := IShellOptions.timeout options;
     INormalizedShellOptions.async := IShellOptions.async options;
     INormalizedShellOptions.nopipe := IShellOptions.nopipe options;
     INormalizedShellOptions.silent := IShellOptions.silent options;
     INormalizedShellOptions.transform := IShellOptions.transform options;
     INormalizedShellOptions.parentProcess := parentProcess;
     INormalizedShellOptions.spawn :=
       match IShellOptions.spawn options with
       | Some f => f
       | None => Node.spawn
       end;
     INormalizedShellOptions.execSync :=
       match IShellOptions.execSync options with
       | Some f => f
       | None => execSync
       end;
     INormalizedShellOptions.stdio := stdio |}.

Definition shell (command : string) (options : IShellOptions.t) : ShellResult :=
  let normalizedOptions := normalize options in
  if Js.truthy_opt Js.truthy_bool (INormalizedShellOptions.async normalizedOptions)
  then let '(w, st) := shellAsync command normalizedOptions in AsyncResult w st
  else SyncResult (shellSync command normalizedOptions).

(** The promise of an asynchronous call after the event loop has
    delivered [events]. *)
Definition settle (command : string) (options : INormalizedShellOptions.t)
  (events : list Event) : Async.Invocation :=
  let '(w, st) := shellAsync command options in
  Async.run toString V2Error.new_ShellError w events st.

End Runner.
End V2.

(** ** Concrete inputs

    Values at which the runners are evaluated below: an ASCII decoding for
    [Buffer.prototype.toString], a parent process, stand-ins for the two
    helpers of [./transforms], and option records. *)

Module Examples.
Import Node.

(** Decoding of a buffer that holds ASCII text, and the bytes of a text. *)
Definition decode : Buffer -> string := string_of_list_byte.
Definition bytes (text : string) : Buffer := list_byte_of_string text.

Definition process : Process :=
  {| process_env := {[ "PATH" := "/usr/bin" ]} |}.



(** Stand-ins for the helpers of [./transforms]: the transform applied to
    the whole text, and the child's own [stdout] handed back. *)
Definition transformString (transform : V2.TransformFunction) (text : string) : string :=
  transform text.

Definition setupStdoutStderrStreams
  (options : V2.INormalizedShellOptions.t) (child : ChildProcess) : V2.Streams :=
  {| V2.stdout := Node.stdout child |}.

(** An [execSync] that returns [value], and one that throws. *)
Definition returning (value : ExecValue) : ExecSync := fun _ _ => Returns value.
Definition throwing (error_message : string) (status : option Z) : ExecSync :=
  fun _ _ => Throws error_message status.

(** [{ async, timeout, prefix }], first revision. *)
Definition v1_options (async : bool) (timeout : option Z) (prefix : option string)
  : V1.IShellOptions.t :=
  {| V1.IShellOptions.cwd := None;
     V1.IShellOptions.env := None;
     V1.IShellOptions.stdio := None;
     V1.IShellOptions.timeout := timeout;
     V1.IShellOptions.prefix := prefix;
     V1.IShellOptions.shell := None;
     V1.IShellOptions.async := Some async |}.

(** [{ async, timeout, transform, execSync }], second revision. *)
Definition v2_options (async : bool) (timeout : option Z)
  (transform : option V2.TransformFunction) (execSync : option ExecSync)
  : V2.IShellOptions.t :=
  {| V2.IShellOptions.cwd := None;
     V2.IShellOptions.env := None;
     V2.IShellOptions.timeout := timeout;
     V2.IShellOptions.async := Some async;
     V2.IShellOptions.nopipe := None;
     V2.IShellOptions.silent := None;
     V2.IShellOptions.transform := transform;
     V2.IShellOptions.parentProcess := None;
     V2.IShellOptions.spawn := None;
     V2.IShellOptions.execSync := execSync |}.

(** A command of two lines. *)
Definition two_lines : string := "echo hi" +:+ String Js.LF "false".

End Examples.

(** ** The outcome of an invocation, read off its events

    What the handlers of [shellAsync] amount to, written as functions of the
    list of events: used to state how the runner behaves as a whole. *)

Module Outcome.
Import Node.

(** The timer callback is among the events. *)
Fixpoint timer_fired (events : list Event) : bool :=
  match events with
  | [] => false
  | TimerFired :: _ => true
  | _ :: events => timer_fired events
  end.

(** The events without the expiries of the timer. *)
Fixpoint without_timer (events : list Event) : list Event :=
  match events with
  | [] => []
  | TimerFired :: events => without_timer events
  | ev :: events => ev :: without_timer events
  end.

(** The events without the data of standard error. *)
Fixpoint without_stderr (events : list Event) : list Event :=
  match events with
  | [] => []
  | StderrData _ :: events => without_stderr events
  | ev :: events => ev :: without_stderr events
  end.

(** Two states of an invocation that differ at most in what was written to
    the parent's standard error. *)
Definition agree_but_stderr (st st' : Async.Invocation) : Prop :=
  Async.promise st = Async.promise st' /\
  Async.output st = Async.output st' /\
  Async.kills st = Async.kills st' /\
  Async.timer st = Async.timer st' /\
  Async.process_stdout st = Async.process_stdout st'.

(** The promise that the settling event [ev] leaves when it comes after the
    events [pre], none of which settles: the value or the error the handler
    of [ev] passes to [resolve] or [reject]. *)
Definition verdict (toString : Buffer -> string) (new_ShellError : string -> ShellError)
  (command : string) (stdout_listener : bool) (pre : list Event) (ev : Event) : Promise :=
  match ev with
  | ProcessClose exitCode =>
      if exitCode =? 0 then
        Resolved (if stdout_listener
                  then toString <$> last (Trace.stdout_chunks pre)
                  else None)
      else
        Rejected (new_ShellError
                    ("Command failed: " +:+ command +:+ " with exit code "
                       +:+ Js.Number_toString exitCode))
  | ProcessError error =>
      Rejected (new_ShellError
                  ("Failed to start command: " +:+ command +:+ "; " +:+ error))
  | TimerFired => Rejected (new_ShellError ("Command timeout: " +:+ command))
  | StdoutData _ | StderrData _ => Pending
  end.

End Outcome.

(** ** Further concrete inputs *)

Module Inputs.
Import Node.

(** Normalized options of the first revision with a given [stdio], [timeout]
    and [prefix]. *)
Definition v1_normalized (stdio : StdioOptions) (timeout : option Z)
  (prefix : option string) : V1.INormalizedShellOptions.t :=
  {| V1.INormalizedShellOptions.cwd := None;
     V1.INormalizedShellOptions.env := {[ "FORCE_COLOR" := "1" ]};
     V1.INormalizedShellOptions.stdio := stdio;
     V1.INormalizedShellOptions.timeout := timeout;
     V1.INormalizedShellOptions.prefix := prefix;
     V1.INormalizedShellOptions.shell := None;
     V1.INormalizedShellOptions.async := Some true |}.

(** [{ env, nopipe, silent, execSync }], second revision, synchronous. *)
Definition v2_sync (env : option (gmap string string)) (nopipe silent : option bool)
  (execSync : option ExecSync) : V2.IShellOptions.t :=
  {| V2.IShellOptions.cwd := None;
     V2.IShellOptions.env := env;
     V2.IShellOptions.timeout := None;
     V2.IShellOptions.async := None;
     V2.IShellOptions.nopipe := nopipe;
     V2.IShellOptions.silent := silent;
     V2.IShellOptions.transform := None;
     V2.IShellOptions.parentProcess := None;
     V2.IShellOptions.spawn := None;
     V2.IShellOptions.execSync := execSync |}.

(** [{ env }], first revision. *)
Definition v1_env (env : option (gmap string string)) : V1.IShellOptions.t :=
  {| V1.IShellOptions.cwd := None;
     V1.IShellOptions.env := env;
     V1.IShellOptions.stdio := None;
     V1.IShellOptions.timeout := None;
     V1.IShellOptions.prefix := None;
     V1.IShellOptions.shell := None;
     V1.IShellOptions.async := None |}.

(** Another parent process. *)
Definition other_process : Process :=
  {| process_env := {[ "HOME" := "/root" ]} |}.

End Inputs.

(** * Properties *)

(** ** Strings *)

Module JsFacts.
Import Js.

(** Appending is marked as never simplified; these are its equations. *)
Lemma app_cons c (a b : string) : String c a +:+ b = String c (a +:+ b).
Proof. reflexivity. Qed.

Lemma app_nil (b : string) : EmptyString +:+ b = b.
Proof. reflexivity. Qed.

Lemma split_not_nil sep s : split sep s <> [].
Proof.
  destruct s as [|c rest]; simpl; [discriminate|].
  destruct (Ascii.eqb c sep); [discriminate|].
  destruct (split sep rest); discriminate.
Qed.

(** The first piece of [s.split("\n")] has no line feed, and is either the
    whole of [s] or what precedes a line feed of [s]. *)
Lemma split_first_piece s :
  let piece := nth 0 (split LF s) EmptyString in
  single_line piece /\
  (s = piece \/ exists rest, s = piece +:+ String LF rest).
Proof.
  induction s as [|c rest IH]; simpl.
  - split; [intros []|now left].
  - destruct (Ascii.eqb_spec c LF) as [->|Hc]; simpl.
    + split; [intros []|right; now exists rest].
    + destruct (split LF rest) as [|piece pieces] eqn:E.
      { now apply split_not_nil in E. }
      simpl in *. destruct IH as [Hline Hrest]. split.
      * unfold single_line, chars. simpl. intros [H|H]; [congruence|].
        now apply Hline.
      * destruct Hrest as [->|[tl ->]]; [now left|right; now exists tl].
Qed.

(** The first piece of the split is the first line. *)
Lemma split_first_line s : nth 0 (split LF s) EmptyString = first_line s.
Proof.
  induction s as [|c rest IH]; [reflexivity|]. simpl.
  destruct (Ascii.eqb c LF); [reflexivity|].
  destruct (split LF rest) as [|piece pieces] eqn:E.
  { now apply split_not_nil in E. }
  simpl in *. now rewrite IH.
Qed.

Lemma single_line_app a b :
  single_line (a +:+ b) <-> single_line a /\ single_line b.
Proof.
  unfold single_line, chars. induction a as [|c a IH]; simpl.
  - tauto.
  - tauto.
Qed.

(** A string without line feed is its own first piece. *)
Lemma split_single_line s :
  single_line s -> nth 0 (split LF s) EmptyString = s.
Proof.
  intros Hs. destruct (split_first_piece s) as [_ [H|[rest H]]]; [now rewrite <- H|].
  exfalso. rewrite H in Hs. apply single_line_app in Hs as [_ Hs].
  apply Hs. simpl. now left.
Qed.

(** A prefix without line feed survives the cut at the first line feed. *)
Lemma split_keeps_prefix a s :
  single_line a ->
  exists rest, nth 0 (split LF (a +:+ s)) EmptyString = a +:+ rest.
Proof.
  unfold single_line, chars.
  induction a as [|c a IH]; simpl; intros Ha.
  - now exists (nth 0 (split LF s) EmptyString).
  - destruct (Ascii.eqb_spec c LF) as [->|Hc]; [tauto|].
    destruct IH as [rest IH]; [tauto|].
    destruct (split LF (a +:+ s)) as [|piece pieces] eqn:E.
    { now apply split_not_nil in E. }
    simpl in *. exists rest. now rewrite IH.
Qed.

Lemma app_assoc_s (a b c : string) : (a +:+ b) +:+ c = a +:+ b +:+ c.
Proof.
  induction a as [|x a IH]; [reflexivity|].
  rewrite !app_cons. now f_equal.
Qed.

Lemma app_empty_r (a : string) : a +:+ EmptyString = a.
Proof.
  induction a as [|x a IH]; [reflexivity|].
  rewrite app_cons. now f_equal.
Qed.

(** [startsWith] and [includes] decide [begins_with] and [contains]. *)
Lemma startsWith_spec s p : startsWith s p = true <-> begins_with s p.
Proof.
  unfold begins_with. revert s.
  induction p as [|a p IH]; intros s.
  - split; [intros _; now exists s|intros _; now destruct s].
  - destruct s as [|b s]; simpl.
    + split; [discriminate|]. intros [rest H]. discriminate.
    + rewrite andb_true_iff, IH. split.
      * intros [Hab [rest ->]]. apply Ascii.eqb_eq in Hab as ->. now exists rest.
      * intros [rest H]. rewrite app_cons in H. injection H as -> ->.
        split; [apply Ascii.eqb_refl|]. now exists rest.
Qed.

Lemma includes_empty sub : includes EmptyString sub = startsWith EmptyString sub.
Proof. simpl. apply orb_false_r. Qed.

Lemma includes_cons c s sub :
  includes (String c s) sub = startsWith (String c s) sub || includes s sub.
Proof. reflexivity. Qed.

Lemma includes_spec s sub : includes s sub = true <-> contains s sub.
Proof.
  unfold contains. induction s as [|c s IH].
  - rewrite includes_empty, startsWith_spec. split.
    + intros [rest H]. now exists EmptyString, rest.
    + intros [before [after H]]. destruct before; [|discriminate].
      now exists after.
  - rewrite includes_cons, orb_true_iff, startsWith_spec, IH. split.
    + intros [[rest H]|[before [after H]]].
      * now exists EmptyString, rest.
      * exists (String c before), after. rewrite app_cons. now rewrite H.
    + intros [before [after H]]. destruct before as [|b before].
      * left. now exists after.
      * right. rewrite app_cons in H. injection H as _ ->.
        now exists before, after.
Qed.

Lemma contains_middle a sub b : contains (a +:+ sub +:+ b) sub.
Proof. now exists a, b. Qed.

Lemma contains_end a sub : contains (a +:+ sub) sub.
Proof. exists a, EmptyString. now rewrite app_empty_r. Qed.

(** The decimal digits of a number hold no line feed. *)
Lemma uint_single_line d : single_line (NilEmpty.string_of_uint d).
Proof.
  unfold single_line, chars.
  induction d; simpl; try tauto;
    (intros [H|H]; [discriminate H|tauto]).
Qed.

Lemma Number_toString_single_line n : single_line (Number_toString n).
Proof.
  unfold Number_toString, NilEmpty.string_of_int.
  destruct (Z.to_int n) as [d|d].
  - apply uint_single_line.
  - pose proof (uint_single_line d) as H. unfold single_line, chars in *.
    simpl. intros [E|E]; [discriminate E|tauto].
Qed.

End JsFacts.

(** ** The event handlers of [shellAsync] *)

Module AsyncFacts.
Import Node Async Trace.

Section Facts.
Variable toString : Buffer -> string.
Variable new_ShellError : string -> ShellError.

Abbreviation run := (Async.run toString new_ShellError).
Abbreviation handle := (Async.handle toString new_ShellError).

Lemma run_app w a b st : run w (a ++ b) st = run w b (run w a st).
Proof. apply fold_left_app. Qed.

Lemma run_cons w ev evs st : run w (ev :: evs) st = run w evs (handle w st ev).
Proof. reflexivity. Qed.

Lemma run_snoc w ev evs st : run w (evs ++ [ev]) st = handle w (run w evs st) ev.
Proof. now rewrite run_app. Qed.

(** No handler changes a settled promise. *)
Lemma handle_settled w st ev :
  settled (promise st) = true -> promise (handle w st ev) = promise st.
Proof.
  intros Hs. destruct ev as [chunk|chunk|error|exitCode|]; simpl;
    unfold on_stdout_data, on_stderr_data, on_error, on_close, on_timeout;
    try reflexivity.
  - destruct (promise st); [discriminate|reflexivity..].
  - destruct (exitCode =? 0); simpl;
      destruct (promise st); try discriminate; reflexivity.
  - destruct (timer st); simpl; [|reflexivity].
    destruct (promise st); [discriminate|reflexivity..].
Qed.

Lemma run_settled w evs st :
  settled (promise st) = true -> promise (run w evs st) = promise st.
Proof.
  revert st. induction evs as [|ev evs IH]; intros st Hs; [reflexivity|].
  rewrite run_cons, IH; rewrite handle_settled; auto.
Qed.

(** The [output] variable holds the text of the last chunk the listener
    saw. *)
Lemma run_output w evs st :
  output (run w evs st) =
    if stdout_listener w then
      match last (stdout_chunks evs) with
      | Some chunk => Some (toString chunk)
      | None => output st
      end
    else output st.
Proof.
  revert st. induction evs as [|ev evs IH]; intros st.
  - simpl. now destruct (stdout_listener w).
  - rewrite run_cons, IH.
    destruct ev as [chunk|chunk|error|exitCode|]; simpl;
      unfold on_close, on_timeout;
      [|reflexivity|reflexivity
       |now destruct (exitCode =? 0)|now destruct (timer st)].
    rewrite last_cons.
    destruct (stdout_listener w); [|reflexivity].
    now destruct (last (stdout_chunks evs)).
Qed.

(** What has been written to the parent's streams. *)
Lemma run_process_stdout w evs st :
  process_stdout (run w evs st) =
    process_stdout st ++
      match prefix_pipes w with
      | Some prefix => map (prefixTransformStream toString prefix) (stdout_chunks evs)
      | None => []
      end.
Proof.
  revert st. induction evs as [|ev evs IH]; intros st.
  - simpl. destruct (prefix_pipes w); now rewrite app_nil_r.
  - rewrite run_cons, IH.
    destruct ev as [chunk|chunk|error|exitCode|]; simpl;
      unfold on_close, on_timeout;
      [|reflexivity|reflexivity
       |now destruct (exitCode =? 0)|now destruct (timer st)].
    destruct (prefix_pipes w); [|reflexivity].
    now rewrite <- app_assoc.
Qed.

Lemma run_process_stderr w evs st :
  process_stderr (run w evs st) =
    process_stderr st ++
      match prefix_pipes w with
      | Some prefix => map (prefixTransformStream toString prefix) (stderr_chunks evs)
      | None => []
      end.
Proof.
  revert st. induction evs as [|ev evs IH]; intros st.
  - simpl. destruct (prefix_pipes w); now rewrite app_nil_r.
  - rewrite run_cons, IH.
    destruct ev as [chunk|chunk|error|exitCode|]; simpl;
      unfold on_close, on_timeout;
      [reflexivity| |reflexivity
       |now destruct (exitCode =? 0)|now destruct (timer st)].
    destruct (prefix_pipes w); [|reflexivity].
    now rewrite <- app_assoc.
Qed.

(** Until the timer fires it stays armed and nobody kills the child. *)
Lemma run_before_timer w evs st :
  TimerFired ∉ evs ->
  timer (run w evs st) = timer st /\ kills (run w evs st) = kills st.
Proof.
  revert st. induction evs as [|ev evs IH]; intros st Hev; [now split|].
  apply not_elem_of_cons in Hev as [Hne Hev].
  rewrite run_cons. destruct (IH (handle w st ev) Hev) as [-> ->].
  destruct ev as [chunk|chunk|error|exitCode|]; simpl;
    unfold on_close; [now split..|now destruct (exitCode =? 0)|].
  now contradiction Hne.
Qed.

(** The three terminal events on a pending promise. *)
Lemma close_zero_pending w st :
  promise st = Pending ->
  promise (handle w st (ProcessClose 0)) = Resolved (output st).
Proof. intros H. simpl. unfold on_close. simpl. now rewrite H. Qed.

Lemma close_nonzero_pending w st exitCode :
  exitCode <> 0 ->
  promise st = Pending ->
  promise (handle w st (ProcessClose exitCode)) =
    Rejected (new_ShellError
                ("Command failed: " +:+ command w +:+ " with exit code "
                   +:+ Js.Number_toString exitCode)).
Proof.
  intros Hc H. simpl. unfold on_close.
  destruct (Z.eqb_spec exitCode 0); [contradiction|]. simpl. now rewrite H.
Qed.

Lemma timeout_pending w st :
  timer st = true ->
  promise st = Pending ->
  let st' := handle w st TimerFired in
  promise st' = Rejected (new_ShellError ("Command timeout: " +:+ command w)) /\
  kills st' = S (kills st).
Proof. intros Ht H. simpl. unfold on_timeout. rewrite Ht. simpl. now rewrite H. Qed.

(** Every rejection carries one of the runner's own three messages. *)
Lemma handle_own_rejections w st ev :
  own_rejections new_ShellError (command w) (promise st) -> own_rejections new_ShellError (command w) (promise (handle w st ev)).
Proof.
  intros Hinv.
  destruct (settled (promise st)) eqn:Hs.
  { now rewrite handle_settled. }
  destruct (promise st) eqn:Hp; try discriminate.
  intros e. destruct ev as [chunk|chunk|error|exitCode|]; simpl;
    unfold on_error, on_close, on_timeout.
  - rewrite Hp. discriminate.
  - rewrite Hp. discriminate.
  - simpl. rewrite Hp. intros [= <-].
    eexists; split; [reflexivity|]. left. now exists error.
  - destruct (exitCode =? 0); simpl; rewrite Hp; [discriminate|].
    intros [= <-].
    eexists; split; [reflexivity|]. right. left. now exists exitCode.
  - destruct (timer st); simpl; rewrite Hp; [|discriminate].
    intros [= <-].
    eexists; split; [reflexivity|]. right. now right.
Qed.

Lemma run_own_rejections w evs st :
  own_rejections new_ShellError (command w) (promise st) -> own_rejections new_ShellError (command w) (promise (run w evs st)).
Proof.
  revert st. induction evs as [|ev evs IH]; intros st Hinv; [exact Hinv|].
  rewrite run_cons. now apply IH, handle_own_rejections.
Qed.

End Facts.
End AsyncFacts.

(** ** The error class *)

(** C4: for every message string given to the [ShellError] constructor (in
    either revision), the message of the constructed error is the part of the
    string up to, and excluding, its first line feed: it holds no line feed
    and is either the whole string or what precedes a line feed of it. *)
Theorem ShellError_keeps_first_line (msg : string) :
  let kept := message (V2Error.new_ShellError msg) in
  message (V1Error.new_ShellError msg) = kept /\
  kept = Js.first_line msg /\
  Js.single_line kept /\
  (msg = kept \/ exists rest, msg = kept +:+ String Js.LF rest).
Proof.
  simpl. split; [reflexivity|].
  destruct msg as [|c msg].
  - split; [reflexivity|]. split; [intros []|now left].
  - split; [apply (JsFacts.split_first_line (String c msg))|].
    apply (JsFacts.split_first_piece (String c msg)).
Qed.

(** ** The options normalizer *)

(** C9: whatever options the caller passes, the stream disposition computed by
    the entry point has ["inherit"] at index 0, the child's standard input. *)
Theorem stdin_is_always_inherited process execSync (options : V2.IShellOptions.t) :
  let stdio := V2.INormalizedShellOptions.stdio (V2.normalize process execSync options) in
  stdio !! 0%nat = Some Node.Inherit /\
  Node.disposition (Node.StdioArray stdio) 0 = Node.Inherit.
Proof.
  unfold V2.normalize. simpl.
  destruct (Js.truthy_opt Js.truthy_bool (V2.IShellOptions.nopipe options));
    [destruct (Js.truthy_opt Js.truthy_bool (V2.IShellOptions.silent options))|];
    now split.
Qed.

(** Lookup in an environment merged over the color default. *)
Lemma lookup_with_color (base : gmap string string) (k : string) :
  (base ∪ {[ "FORCE_COLOR" := "1" ]}) !! k =
    match base !! k with
    | Some v => Some v
    | None => if decide (k = "FORCE_COLOR") then Some "1" else None
    end.
Proof.
  rewrite lookup_union. destruct (base !! k) as [v|] eqn:E.
  - now destruct ({[ "FORCE_COLOR" := "1" ]} !! k).
  - rewrite left_id by apply _. destruct (decide (k = "FORCE_COLOR")) as [->|Hne].
    + apply lookup_singleton_eq.
    + now apply lookup_singleton_ne.
Qed.

(** C3: the normalized environment is the caller's environment when one is
    supplied and the parent process's environment otherwise, merged with
    [FORCE_COLOR]: every variable of that environment keeps its value, and
    [FORCE_COLOR] is added with value ["1"] when the environment does not
    define it, so it is present in every normalized environment. *)
Theorem normalized_env_has_color process execSync
  (options1 : V1.IShellOptions.t) (options2 : V2.IShellOptions.t) :
  let base1 := default (Node.process_env process) (V1.IShellOptions.env options1) in
  let env1 := V1.INormalizedShellOptions.env (V1.normalize process options1) in
  let parent := default process (V2.IShellOptions.parentProcess options2) in
  let base2 := default (Node.process_env parent) (V2.IShellOptions.env options2) in
  let env2 := V2.INormalizedShellOptions.env (V2.normalize process execSync options2) in
  (forall k, env1 !! k =
               match base1 !! k with
               | Some v => Some v
               | None => if decide (k = "FORCE_COLOR") then Some "1" else None
               end) /\
  (forall k, env2 !! k =
               match base2 !! k with
               | Some v => Some v
               | None => if decide (k = "FORCE_COLOR") then Some "1" else None
               end) /\
  "FORCE_COLOR" ∈ dom env1 /\
  "FORCE_COLOR" ∈ dom env2.
Proof.
  simpl.
  assert (H1 : forall k,
             V1.INormalizedShellOptions.env (V1.normalize process options1) !! k =
               match default (Node.process_env process) (V1.IShellOptions.env options1) !! k with
               | Some v => Some v
               | None => if decide (k = "FORCE_COLOR") then Some "1" else None
               end).
  { intros k. unfold V1.normalize. simpl.
    destruct (V1.IShellOptions.env options1); apply lookup_with_color. }
  assert (H2 : forall k,
             V2.INormalizedShellOptions.env (V2.normalize process execSync options2) !! k =
               match default (Node.process_env
                                (default process (V2.IShellOptions.parentProcess options2)))
                             (V2.IShellOptions.env options2) !! k with
               | Some v => Some v
               | None => if decide (k = "FORCE_COLOR") then Some "1" else None
               end).
  { intros k. unfold V2.normalize. simpl.
    destruct (V2.IShellOptions.env options2);
      destruct (V2.IShellOptions.parentProcess options2); apply lookup_with_color. }
  repeat split; [exact H1|exact H2| |].
  - apply elem_of_dom. rewrite H1.
    destruct (_ !! "FORCE_COLOR"); [eauto|]. now rewrite decide_True.
  - apply elem_of_dom. rewrite H2.
    destruct (_ !! "FORCE_COLOR"); [eauto|]. now rewrite decide_True.
Qed.

(** ** Messages of the constructed errors *)

Module ErrorFacts.
Import Js.

Lemma V1_message raw :
  message (V1Error.new_ShellError raw) =
    if truthy_string raw then nth 0 (split LF raw) EmptyString else raw.
Proof. reflexivity. Qed.

Lemma V2_message raw :
  message (V2Error.new_ShellError raw) = message (V1Error.new_ShellError raw).
Proof. reflexivity. Qed.

(** A message of one line is kept whole. *)
Lemma V1_single_line raw :
  single_line raw -> V1Error.new_ShellError raw = {| name := "Error"; message := raw |}.
Proof.
  intros H. unfold V1Error.new_ShellError. f_equal.
  destruct raw; [reflexivity|]. now apply JsFacts.split_single_line.
Qed.

Lemma V2_single_line raw :
  single_line raw ->
  V2Error.new_ShellError raw = {| name := "ShellError"; message := raw |}.
Proof.
  intros H. unfold V2Error.new_ShellError. f_equal.
  destruct raw; [reflexivity|]. now apply JsFacts.split_single_line.
Qed.

(** A leading part of one line is kept. *)
Lemma V1_keeps_prefix a s :
  single_line a -> begins_with (message (V1Error.new_ShellError (a +:+ s))) a.
Proof.
  intros Ha. rewrite V1_message.
  destruct (truthy_string (a +:+ s)).
  - destruct (JsFacts.split_keeps_prefix a s Ha) as [rest ->]. now exists rest.
  - now exists s.
Qed.

Lemma command_timeout_single_line : single_line "Command timeout: ".
Proof.
  unfold single_line, chars. simpl.
  intros H. repeat (destruct H as [H|H]; [discriminate H|]). exact H.
Qed.

Lemma command_failed_single_line command exitCode :
  single_line command ->
  single_line ("Command failed: " +:+ command +:+ " with exit code "
                 +:+ Number_toString exitCode).
Proof.
  intros Hc. rewrite !JsFacts.single_line_app. repeat split.
  - unfold single_line, chars. simpl.
    intros H. repeat (destruct H as [H|H]; [discriminate H|]). exact H.
  - exact Hc.
  - unfold single_line, chars. simpl.
    intros H. repeat (destruct H as [H|H]; [discriminate H|]). exact H.
  - apply JsFacts.Number_toString_single_line.
Qed.

End ErrorFacts.

(** ** One invocation, from the state the executor leaves *)

Module InvocationFacts.
Import Node Async Trace AsyncFacts.

Section Facts.
Variable toString : Buffer -> string.
Variable new_ShellError : string -> ShellError.

Abbreviation run := (Async.run toString new_ShellError).

(** The promise is pending exactly as long as no settling event has come. *)
Lemma pending_from w evs st :
  promise st = Pending ->
  timer st = timeout_set w ->
  promise (run w evs st) = Pending <-> Forall (fun ev => settles (timeout_set w) ev = false) evs.
Proof.
  revert st. induction evs as [|ev evs IH]; intros st Hp Ht.
  - split; [constructor|trivial].
  - rewrite run_cons, Forall_cons. destruct (settles (timeout_set w) ev) eqn:Hev.
    + assert (Hs : settled (promise (handle toString new_ShellError w st ev)) = true).
      { destruct ev as [chunk|chunk|error|exitCode|]; simpl in *;
          unfold on_error, on_close, on_timeout; try discriminate.
        - simpl. now rewrite Hp.
        - destruct (exitCode =? 0); simpl; now rewrite Hp.
        - rewrite Ht, Hev. simpl. now rewrite Hp. }
      rewrite run_settled by exact Hs. split.
      * intros H. rewrite H in Hs. discriminate Hs.
      * intros [H _]. discriminate H.
    + rewrite IH.
      * split; [now split|now intros [_ H]].
      * destruct ev as [chunk|chunk|error|exitCode|]; simpl in *;
          unfold on_timeout; try discriminate; try exact Hp.
        rewrite Ht, Hev. exact Hp.
      * destruct ev as [chunk|chunk|error|exitCode|]; simpl in *;
          unfold on_timeout; try discriminate; try exact Ht.
        rewrite Ht, Hev. congruence.
Qed.

Lemma pending_iff w pre :
  promise (run w pre (started w)) = Pending <->
  Forall (fun ev => settles (timeout_set w) ev = false) pre.
Proof. now apply pending_from. Qed.

(** A settled promise stays as it is. *)
Lemma outcome_is_final w pre later :
  settled (promise (run w pre (started w))) = true ->
  promise (run w (pre ++ later) (started w)) = promise (run w pre (started w)).
Proof. intros H. rewrite run_app. now apply run_settled. Qed.

(** A close with code 0 that finds the promise pending resolves it with
    the last chunk seen by the listener. *)
Lemma close_zero_resolves w pre post :
  promise (run w pre (started w)) = Pending ->
  promise (run w (pre ++ ProcessClose 0 :: post) (started w)) =
    Resolved (if stdout_listener w
              then toString <$> last (stdout_chunks pre)
              else None).
Proof.
  intros H. rewrite run_app, run_cons, run_settled;
    rewrite (close_zero_pending _ _ _ _ H); [|reflexivity].
  rewrite run_output. simpl.
  destruct (stdout_listener w); [|reflexivity].
  now destruct (last (stdout_chunks pre)).
Qed.

(** A close with another code that finds the promise pending rejects
    it. *)
Lemma close_nonzero_rejects w pre post exitCode :
  exitCode <> 0 ->
  promise (run w pre (started w)) = Pending ->
  promise (run w (pre ++ ProcessClose exitCode :: post) (started w)) =
    Rejected (new_ShellError
                ("Command failed: " +:+ command w +:+ " with exit code "
                   +:+ Js.Number_toString exitCode)).
Proof.
  intros Hc H. rewrite run_app, run_cons, run_settled;
    rewrite (close_nonzero_pending _ _ _ _ _ Hc H); reflexivity.
Qed.

(** The timer that finds the promise pending kills the child once and
    rejects the promise for good. *)
Lemma timeout_rejects w pre later :
  timeout_set w = true ->
  TimerFired ∉ pre ->
  promise (run w pre (started w)) = Pending ->
  kills (run w (pre ++ [TimerFired]) (started w)) = 1%nat /\
  promise (run w (pre ++ [TimerFired]) (started w)) =
    Rejected (new_ShellError ("Command timeout: " +:+ command w)) /\
  promise (run w (pre ++ TimerFired :: later) (started w)) =
    Rejected (new_ShellError ("Command timeout: " +:+ command w)).
Proof.
  intros Hset Hpre Hpending.
  destruct (run_before_timer toString new_ShellError w pre (started w) Hpre)
    as [Htimer Hkills].
  simpl in Htimer, Hkills. rewrite Hset in Htimer.
  destruct (timeout_pending toString new_ShellError w _ Htimer Hpending)
    as [Hp Hk].
  rewrite run_snoc, Hk, Hkills, Hp. repeat split.
  rewrite run_app, run_cons, run_settled; rewrite Hp; reflexivity.
Qed.

(** Each written chunk starts with the prefix and one space. *)
Lemma prefixed_begins prefix chunks :
  Forall (fun written => Js.begins_with written (prefix +:+ " "))
         (map (prefixTransformStream toString prefix) chunks).
Proof.
  apply Forall_forall. intros written Hin.
  apply list_elem_of_In, in_map_iff in Hin as [chunk [<- _]].
  exists (toString chunk). unfold prefixTransformStream.
  now rewrite JsFacts.app_assoc_s.
Qed.

End Facts.
End InvocationFacts.

(** ** The asynchronous runner *)

(** [settle] runs the shared handlers under the wiring [shellAsync] builds. *)
Lemma V1_settle_run toString command options events :
  V1.settle toString command options events =
    Async.run toString V1Error.new_ShellError
      (V1.shellAsync command options).1 events
      (Async.started (V1.shellAsync command options).1).
Proof. reflexivity. Qed.

Lemma V2_settle_run toString setup command options events :
  V2.settle toString setup command options events =
    Async.run toString V2Error.new_ShellError
      (V2.shellAsync setup command options).1 events
      (Async.started (V2.shellAsync setup command options).1).
Proof. reflexivity. Qed.

(** C7: when a prefix is configured for an asynchronous run, every chunk the
    runner writes to the parent's standard output or standard error begins
    with the prefix followed by one space; and for a non-empty prefix what is
    written is, chunk by chunk and in order, the prefix, one space and the text
    of the chunk the child emitted, each chunk on its own.  (An empty prefix is
    falsy: the runner then sets up no pipe and writes nothing itself.) *)
Theorem prefix_starts_every_forwarded_chunk toString command
  (options : V1.INormalizedShellOptions.t) (prefix : string) events :
  V1.INormalizedShellOptions.prefix options = Some prefix ->
  let st := V1.settle toString command options events in
  Forall (fun written => Js.begins_with written (prefix +:+ " "))
         (Async.process_stdout st ++ Async.process_stderr st) /\
  (prefix <> EmptyString ->
   Async.process_stdout st =
     map (fun chunk => prefix +:+ " " +:+ toString chunk) (Trace.stdout_chunks events) /\
   Async.process_stderr st =
     map (fun chunk => prefix +:+ " " +:+ toString chunk) (Trace.stderr_chunks events)).
Proof.
  intros Hprefix st. unfold st.
  rewrite V1_settle_run, AsyncFacts.run_process_stdout, AsyncFacts.run_process_stderr.
  assert (Hpipes : Async.prefix_pipes (V1.shellAsync command options).1 =
                     if Js.truthy_string prefix then Some prefix else None).
  { unfold V1.shellAsync. simpl. rewrite Hprefix. simpl.
    now destruct (Js.truthy_string prefix). }
  rewrite Hpipes. simpl. split.
  - destruct (Js.truthy_string prefix); [|constructor].
    apply Forall_app. split; apply InvocationFacts.prefixed_begins.
  - intros Hne. destruct prefix; [contradiction|]. now split.
Qed.

Lemma prefix_starts_every_forwarded_chunk_witness :
  let st := V1.settle Examples.decode "ls"
              (V1.normalize Examples.process (Examples.v1_options true None (Some "[ls]")))
              [Node.StdoutData (Examples.bytes "a"); Node.StderrData (Examples.bytes "b");
               Node.StdoutData (Examples.bytes "c"); Node.ProcessClose 0] in
  Forall (fun written => Js.begins_with written "[ls] ")
         (Async.process_stdout st ++ Async.process_stderr st) /\
  Async.process_stdout st = ["[ls] a"; "[ls] c"] /\
  Async.process_stderr st = ["[ls] b"].
Proof.
  destruct (prefix_starts_every_forwarded_chunk Examples.decode "ls"
              (V1.normalize Examples.process (Examples.v1_options true None (Some "[ls]")))
              "[ls]"
              [Node.StdoutData (Examples.bytes "a"); Node.StderrData (Examples.bytes "b");
               Node.StdoutData (Examples.bytes "c"); Node.ProcessClose 0]
              eq_refl) as [Hbegins Hexact].
  split; [exact Hbegins|]. apply Hexact. discriminate.
Defined.

(** C1, as amended: in both revisions, a close event with exit code 0 that
    finds the promise still pending resolves the promise with the text of the
    last chunk the ['data'] listener received on standard output before it,
    earlier chunks being dropped, or with [null] when the listener received
    none (or was not attached because there is no [stdout] stream).  The
    promise is still pending exactly when no settling event came before: no
    error event, no earlier close event and, when a timeout is set, no expiry
    of the timer. *)
Theorem close_zero_resolves_with_last_chunk toString setup command :
  (forall (options : V1.INormalizedShellOptions.t) pre post,
      Async.promise (V1.settle toString command options pre) = Pending ->
      Async.promise (V1.settle toString command options (pre ++ Node.ProcessClose 0 :: post)) =
        Resolved (if Node.stdout (Node.spawn command (V1.spawnOptions options))
                  then toString <$> last (Trace.stdout_chunks pre)
                  else None)) /\
  (forall (options : V2.INormalizedShellOptions.t) pre post,
      Async.promise (V2.settle toString setup command options pre) = Pending ->
      Async.promise (V2.settle toString setup command options (pre ++ Node.ProcessClose 0 :: post)) =
        Resolved (if V2.stdout
                       (setup options
                          (V2.INormalizedShellOptions.spawn options command
                             (V2.spawnOptions options)))
                  then toString <$> last (Trace.stdout_chunks pre)
                  else None)) /\
  (forall (options : V1.INormalizedShellOptions.t) pre,
      Async.promise (V1.settle toString command options pre) = Pending <->
      Forall (fun ev =>
                Trace.settles
                  (Js.truthy_opt Js.truthy_number (V1.INormalizedShellOptions.timeout options))
                  ev = false) pre) /\
  (forall (options : V2.INormalizedShellOptions.t) pre,
      Async.promise (V2.settle toString setup command options pre) = Pending <->
      Forall (fun ev =>
                Trace.settles
                  (Js.truthy_opt Js.truthy_number (V2.INormalizedShellOptions.timeout options))
                  ev = false) pre).
Proof.
  split; [|split; [|split]].
  - intros options pre post Hpending. rewrite !V1_settle_run in *.
    now rewrite (InvocationFacts.close_zero_resolves _ _ _ pre post Hpending).
  - intros options pre post Hpending. rewrite !V2_settle_run in *.
    now rewrite (InvocationFacts.close_zero_resolves _ _ _ pre post Hpending).
  - intros options pre. rewrite V1_settle_run.
    apply (InvocationFacts.pending_iff toString V1Error.new_ShellError
             (V1.shellAsync command options).1).
  - intros options pre. rewrite V2_settle_run.
    apply (InvocationFacts.pending_iff toString V2Error.new_ShellError
             (V2.shellAsync setup command options).1).
Qed.

Lemma close_zero_resolves_with_last_chunk_witness :
  Async.promise
    (V2.settle Examples.decode Examples.setupStdoutStderrStreams "echo a; echo b"
       (V2.normalize Examples.process (Examples.throwing "" None)
          (Examples.v2_options true None None None))
       ([Node.StdoutData (Examples.bytes "a"); Node.StderrData (Examples.bytes "x");
         Node.StdoutData (Examples.bytes "b")] ++ Node.ProcessClose 0 :: [])) =
    Resolved (Some "b").
Proof.
  apply (proj1 (proj2 (close_zero_resolves_with_last_chunk
                         Examples.decode Examples.setupStdoutStderrStreams "echo a; echo b"))
           (V2.normalize Examples.process (Examples.throwing "" None)
              (Examples.v2_options true None None None))
           [Node.StdoutData (Examples.bytes "a"); Node.StderrData (Examples.bytes "x");
            Node.StdoutData (Examples.bytes "b")] []).
  reflexivity.
Defined.

(** C1 as stated fails: with a timeout of 100 ms, the timer callback runs
    first (the child is about to exit, or handles the termination signal and
    exits normally) and the close event with exit code 0 follows; the promise
    stays rejected with the timeout error. *)
Lemma close_zero_after_timeout_stays_rejected :
  Async.promise
    (V1.settle Examples.decode "sleep 1"
       (V1.normalize Examples.process (Examples.v1_options true (Some 100) None))
       [Node.TimerFired; Node.ProcessClose 0]) =
    Rejected {| name := "Error"; message := "Command timeout: sleep 1" |} /\
  ~ (exists value,
        Async.promise
          (V1.settle Examples.decode "sleep 1"
             (V1.normalize Examples.process (Examples.v1_options true (Some 100) None))
             [Node.TimerFired; Node.ProcessClose 0]) = Resolved value).
Proof.
  split; [reflexivity|]. intros [value H]. discriminate H.
Qed.

(** C10, as amended: in the first revision, when no prefix is configured and
    the caller gives no [stdio], the disposition is ["inherit"], the child has
    no [stdout] stream, no ['data'] listener is attached, and a close event
    with exit code 0 that finds the promise still pending resolves it with
    [null], whatever the child wrote before. *)
Theorem inherit_default_resolves_null process toString command
  (options : V1.IShellOptions.t) :
  Js.truthy_opt Js.truthy_string (V1.IShellOptions.prefix options) = false ->
  V1.IShellOptions.stdio options = None ->
  let normalized := V1.normalize process options in
  V1.INormalizedShellOptions.stdio normalized = Node.StdioString Node.Inherit /\
  Node.stdout (Node.spawn command (V1.spawnOptions normalized)) = false /\
  Async.stdout_listener (V1.shellAsync command normalized).1 = false /\
  (forall pre post,
      Async.promise (V1.settle toString command normalized pre) = Pending ->
      Async.promise (V1.settle toString command normalized (pre ++ Node.ProcessClose 0 :: post)) =
        Resolved None).
Proof.
  intros Hprefix Hstdio normalized.
  assert (Hlistener : Async.stdout_listener (V1.shellAsync command normalized).1 = false).
  { unfold normalized, V1.shellAsync, V1.normalize. simpl.
    rewrite Hprefix, Hstdio. reflexivity. }
  split; [|split; [exact Hlistener|split; [exact Hlistener|]]].
  - unfold normalized, V1.normalize. simpl. now rewrite Hstdio.
  - intros pre post Hpending. rewrite !V1_settle_run in *.
    rewrite (InvocationFacts.close_zero_resolves _ _ _ pre post Hpending).
    now rewrite Hlistener.
Qed.

Lemma inherit_default_resolves_null_witness :
  Async.promise
    (V1.settle Examples.decode "echo hello"
       (V1.normalize Examples.process (Examples.v1_options true None None))
       ([Node.StdoutData (Examples.bytes "hello")] ++ Node.ProcessClose 0 :: [])) =
    Resolved None.
Proof.
  apply (proj2 (proj2 (proj2 (inherit_default_resolves_null Examples.process
                                Examples.decode "echo hello"
                                (Examples.v1_options true None None)
                                eq_refl eq_refl)))
           [Node.StdoutData (Examples.bytes "hello")] []).
  reflexivity.
Defined.

(** C10 as stated fails: no prefix, default [stdio] and exit code 0, but the
    timer of a 50 ms timeout runs before the close event is delivered; the
    promise is rejected with the timeout error, not resolved with [null]. *)
Lemma inherit_default_after_timeout_stays_rejected :
  (Js.truthy_opt Js.truthy_string
     (V1.IShellOptions.prefix (Examples.v1_options true (Some 50) None)) = false) /\
  (V1.IShellOptions.stdio (Examples.v1_options true (Some 50) None) = None) /\
  (Async.promise
     (V1.settle Examples.decode "echo hello; sleep 1"
        (V1.normalize Examples.process (Examples.v1_options true (Some 50) None))
        [Node.StdoutData (Examples.bytes "hello"); Node.TimerFired; Node.ProcessClose 0]) =
     Rejected {| name := "Error"; message := "Command timeout: echo hello; sleep 1" |}) /\
  (Async.promise
     (V1.settle Examples.decode "echo hello; sleep 1"
        (V1.normalize Examples.process (Examples.v1_options true (Some 50) None))
        [Node.StdoutData (Examples.bytes "hello"); Node.TimerFired; Node.ProcessClose 0]) <>
     Resolved None).
Proof.
  repeat split. discriminate.
Qed.

(** C2, as amended: in both revisions, for a command of one line, a close
    event with a nonzero exit code N that finds the promise still pending
    rejects it with the error whose message is
    [Command failed: <command> with exit code <N>], which contains both the
    command and N.  The synchronous runner adds nothing of its own: the error
    it throws carries the first line of the message of the error that
    [execSync] threw (passed through the transform, in the second revision,
    when one is configured). *)
Theorem nonzero_exit_messages toString transformString setup command exitCode :
  exitCode <> 0 ->
  Js.single_line command ->
  let raw := "Command failed: " +:+ command +:+ " with exit code "
               +:+ Js.Number_toString exitCode in
  Js.contains raw command /\
  Js.contains raw (Js.Number_toString exitCode) /\
  (forall (options : V1.INormalizedShellOptions.t) pre post,
      Async.promise (V1.settle toString command options pre) = Pending ->
      Async.promise (V1.settle toString command options (pre ++ Node.ProcessClose exitCode :: post)) =
        Rejected {| name := "Error"; message := raw |}) /\
  (forall (options : V2.INormalizedShellOptions.t) pre post,
      Async.promise (V2.settle toString setup command options pre) = Pending ->
      Async.promise (V2.settle toString setup command options (pre ++ Node.ProcessClose exitCode :: post)) =
        Rejected {| name := "ShellError"; message := raw |}) /\
  (forall execSync (options : V1.INormalizedShellOptions.t) error_message status,
      execSync command (V1.execSyncOptions options) = Node.Throws error_message status ->
      V1.shellSync execSync toString command options =
        inl (V1Error.new_ShellError error_message)) /\
  (forall (options : V2.INormalizedShellOptions.t) error_message status,
      V2.INormalizedShellOptions.execSync options command (V2.execSyncOptions options) =
        Node.Throws error_message status ->
      V2.result (V2.shellSync toString transformString command options) =
        inl (V2Error.new_ShellError
               match V2.INormalizedShellOptions.transform options with
               | Some transform => transformString transform error_message
               | None => error_message
               end)).
Proof.
  intros Hcode Hline raw.
  pose proof (ErrorFacts.command_failed_single_line command exitCode Hline) as Hraw.
  split; [apply JsFacts.contains_middle|].
  split.
  { unfold raw. rewrite <- !JsFacts.app_assoc_s. apply JsFacts.contains_end. }
  split; [|split; [|split]].
  - intros options pre post Hpending. rewrite !V1_settle_run in *.
    rewrite (InvocationFacts.close_nonzero_rejects _ _ _ pre post exitCode Hcode Hpending).
    f_equal. now apply ErrorFacts.V1_single_line.
  - intros options pre post Hpending. rewrite !V2_settle_run in *.
    rewrite (InvocationFacts.close_nonzero_rejects _ _ _ pre post exitCode Hcode Hpending).
    f_equal. now apply ErrorFacts.V2_single_line.
  - intros execSync options error_message status Hthrows.
    unfold V1.shellSync. now rewrite Hthrows.
  - intros options error_message status Hthrows.
    unfold V2.shellSync. now rewrite Hthrows.
Qed.

Lemma nonzero_exit_messages_witness :
  Js.contains "Command failed: false with exit code 3" "false" /\
  Js.contains "Command failed: false with exit code 3" "3" /\
  Async.promise
    (V1.settle Examples.decode "false"
       (V1.normalize Examples.process (Examples.v1_options true None None))
       ([] ++ Node.ProcessClose 3 :: [])) =
    Rejected {| name := "Error"; message := "Command failed: false with exit code 3" |}.
Proof.
  assert (Hline : Js.single_line "false").
  { unfold Js.single_line, Js.chars. simpl.
    intros H. repeat (destruct H as [H|H]; [discriminate H|]). exact H. }
  destruct (nonzero_exit_messages Examples.decode Examples.transformString
              Examples.setupStdoutStderrStreams "false" 3 ltac:(discriminate) Hline)
    as (Hcommand & Hcode & Hasync & _).
  split; [exact Hcommand|]. split; [exact Hcode|].
  apply (Hasync (V1.normalize Examples.process (Examples.v1_options true None None)) [] []).
  reflexivity.
Defined.

(** C2 as stated fails.  Asynchronously, a command of two lines, [echo hi] and
    [false], exits with code 1: the message is cut at the line feed inside the
    command and contains neither the exit code nor the whole command.
    Synchronously, [execSync] throws for [false] an error with status 1 whose
    message is [Command failed: false]: the runner throws that message, which
    does not contain the exit code. *)
Lemma nonzero_exit_message_without_code :
  (Async.promise
     (V1.settle Examples.decode Examples.two_lines
        (V1.normalize Examples.process (Examples.v1_options true None None))
        [Node.ProcessClose 1]) =
     Rejected {| name := "Error"; message := "Command failed: echo hi" |}) /\
  ~ Js.contains "Command failed: echo hi" (Js.Number_toString 1) /\
  ~ Js.contains "Command failed: echo hi" Examples.two_lines /\
  (V1.shell Examples.process (Examples.throwing "Command failed: false" (Some 1))
     Examples.decode "false" (Examples.v1_options false None None) =
     V1.SyncResult (inl {| name := "Error"; message := "Command failed: false" |})) /\
  ~ Js.contains "Command failed: false" (Js.Number_toString 1).
Proof.
  split; [reflexivity|].
  split; [intros H; apply JsFacts.includes_spec in H; discriminate H|].
  split; [intros H; apply JsFacts.includes_spec in H; discriminate H|].
  split; [reflexivity|].
  intros H; apply JsFacts.includes_spec in H; discriminate H.
Qed.

(** ** The transform *)


(** ** The synchronous runner *)

(** C8, as amended: in both revisions the synchronous runner returns [null]
    exactly when the value [execSync] returned is falsy, that is [null] (the
    standard output was not piped) or an empty string; a [Buffer] is truthy
    even when empty, so for it the runner returns its text, which may be the
    empty text, passed through the transform in the second revision when one
    is configured. *)
Theorem sync_returns_null_for_falsy_value toString transformString command value :
  (Node.truthy value = false <->
     value = Node.NullValue \/ value = Node.StringValue EmptyString) /\
  (forall execSync (options : V1.INormalizedShellOptions.t),
      execSync command (V1.execSyncOptions options) = Node.Returns value ->
      V1.shellSync execSync toString command options =
        inr (if Node.truthy value
             then Some (V1.value_toString toString value)
             else None)) /\
  (forall (options : V2.INormalizedShellOptions.t),
      V2.INormalizedShellOptions.execSync options command (V2.execSyncOptions options) =
        Node.Returns value ->
      V2.result (V2.shellSync toString transformString command options) =
        inr (if Node.truthy value
             then Some match V2.INormalizedShellOptions.transform options with
                       | Some transform =>
                           transformString transform (V2.value_toString toString value)
                       | None => V2.value_toString toString value
                       end
             else None)).
Proof.
  split; [|split].
  - destruct value as [buffer|text|]; simpl.
    + split; [discriminate|]. intros [H|H]; discriminate H.
    + destruct text; simpl; split; auto; try discriminate.
      intros [H|H]; discriminate H.
    + split; auto.
  - intros execSync options Hreturns.
    unfold V1.shellSync. rewrite Hreturns. now destruct (Node.truthy value).
  - intros options Hreturns.
    unfold V2.shellSync. rewrite Hreturns. now destruct (Node.truthy value).
Qed.

Lemma sync_returns_null_for_falsy_value_witness :
  V1.shellSync (Examples.returning Node.NullValue) Examples.decode "ls"
    (V1.normalize Examples.process (Examples.v1_options false None None)) = inr None.
Proof.
  apply (proj1 (proj2 (sync_returns_null_for_falsy_value
                         Examples.decode Examples.transformString "ls" Node.NullValue))
           (Examples.returning Node.NullValue)
           (V1.normalize Examples.process (Examples.v1_options false None None))).
  reflexivity.
Defined.

(** C8 as stated fails: [true] prints nothing, [execSync] returns an empty
    [Buffer] for the piped standard output, and the runner returns the empty
    text (and writes it to the parent's standard output), not [null]. *)
Lemma empty_output_is_not_null :
  (V2.shell Examples.process (Examples.returning (Node.BufferValue []))
     Examples.decode Examples.transformString Examples.setupStdoutStderrStreams
     "true" (Examples.v2_options false None None None) =
     V2.SyncResult {| V2.result := inr (Some EmptyString); V2.written := [EmptyString] |}) /\
  (V2.result
     (V2.shellSync Examples.decode Examples.transformString "true"
        (V2.normalize Examples.process (Examples.returning (Node.BufferValue []))
           (Examples.v2_options false None None None))) <> inr None).
Proof.
  split; [reflexivity|discriminate].
Qed.

(** ** The invocation as a whole *)

Module OutcomeFacts.
Import Node Async Trace Outcome AsyncFacts.

Section Facts.
Variable toString : Buffer -> string.
Variable new_ShellError : string -> ShellError.

Abbreviation run := (Async.run toString new_ShellError).
Abbreviation handle := (Async.handle toString new_ShellError).

(** Only the timer callback touches the timer and the kill count. *)
Lemma handle_keeps_timer w st ev :
  ev <> TimerFired ->
  timer (handle w st ev) = timer st /\ kills (handle w st ev) = kills st.
Proof.
  intros Hev. destruct ev as [chunk|chunk|error|exitCode|]; simpl;
    unfold on_close; [now split..|now destruct (exitCode =? 0)|contradiction].
Qed.

(** [kill()] is called by the first expiry of an armed timer and by nothing
    else. *)
Lemma run_kills w evs st :
  kills (run w evs st) =
    (kills st + if timer st && timer_fired evs then 1 else 0)%nat.
Proof.
  revert st. induction evs as [|ev evs IH]; intros st.
  - simpl. rewrite andb_false_r. lia.
  - rewrite run_cons, IH.
    destruct ev as [chunk|chunk|error|exitCode|].
    5: { simpl. unfold on_timeout.
         destruct (timer st) eqn:Ht; simpl; rewrite ?Ht; simpl; lia. }
    all: match goal with
         | |- context [Async.handle _ _ _ _ ?e] =>
             destruct (handle_keeps_timer w st e) as [-> ->];
             [discriminate|reflexivity]
         end.
Qed.

(** Without an armed timer the expiries of the timer change nothing. *)
Lemma run_without_timer w evs st :
  timer st = false -> run w evs st = run w (without_timer evs) st.
Proof.
  revert st. induction evs as [|ev evs IH]; intros st Ht; [reflexivity|].
  destruct ev as [chunk|chunk|error|exitCode|].
  5: { rewrite run_cons. simpl. unfold on_timeout. rewrite Ht. now apply IH. }
  all: simpl without_timer; rewrite !run_cons; apply IH;
    match goal with
    | |- context [Async.handle _ _ _ _ ?e] =>
        destruct (handle_keeps_timer w st e) as [-> _]; [discriminate|exact Ht]
    end.
Qed.

(** Data on standard error changes only what is written to the parent's
    standard error. *)
Lemma handle_agree w st st' ev :
  agree_but_stderr st st' -> agree_but_stderr (handle w st ev) (handle w st' ev).
Proof.
  intros (Hp & Ho & Hk & Ht & Hw). unfold agree_but_stderr.
  destruct ev as [chunk|chunk|error|exitCode|]; simpl;
    unfold on_close, on_timeout.
  - rewrite Hp, Ho, Hk, Ht, Hw. repeat split; auto.
  - repeat split; auto.
  - simpl. rewrite Hp. repeat split; auto.
  - destruct (exitCode =? 0); simpl; rewrite Hp, ?Ho; repeat split; auto.
  - rewrite Ht. destruct (timer st') eqn:Ht'; simpl;
      rewrite ?Hp, ?Hk, ?Ht'; repeat split; auto.
Qed.

Lemma run_without_stderr w evs st st' :
  agree_but_stderr st st' ->
  agree_but_stderr (run w evs st) (run w (without_stderr evs) st').
Proof.
  revert st st'. induction evs as [|ev evs IH]; intros st st' H; [exact H|].
  destruct ev as [chunk|chunk|error|exitCode|].
  2: { rewrite run_cons. simpl without_stderr. apply IH.
       destruct H as (Hp & Ho & Hk & Ht & Hw). repeat split; assumption. }
  all: simpl without_stderr; rewrite !run_cons; apply IH; now apply handle_agree.
Qed.

(** Events that do not settle leave the promise pending and the timer as it
    was set. *)
Lemma run_quiet w evs st :
  Forall (fun ev => settles (timeout_set w) ev = false) evs ->
  promise st = Pending ->
  timer st = timeout_set w ->
  promise (run w evs st) = Pending /\ timer (run w evs st) = timeout_set w.
Proof.
  revert st. induction evs as [|ev evs IH]; intros st Hq Hp Ht; [now split|].
  apply Forall_cons in Hq as [Hev Hq]. rewrite run_cons. apply IH; [exact Hq| |].
  - destruct ev as [chunk|chunk|error|exitCode|]; simpl in *;
      unfold on_timeout; try discriminate; try exact Hp.
    rewrite Ht, Hev. exact Hp.
  - destruct ev as [chunk|chunk|error|exitCode|]; simpl in *;
      unfold on_timeout; try discriminate; try exact Ht.
    rewrite Ht, Hev. congruence.
Qed.

(** The first settling event decides the promise. *)
Lemma first_settling_event_decides w pre ev post :
  Forall (fun ev => settles (timeout_set w) ev = false) pre ->
  settles (timeout_set w) ev = true ->
  promise (run w (pre ++ ev :: post) (started w)) =
    verdict toString new_ShellError (command w) (stdout_listener w) pre ev.
Proof.
  intros Hq Hev.
  destruct (run_quiet w pre (started w) Hq eq_refl eq_refl) as [Hp Ht].
  pose proof (run_output toString new_ShellError w pre (started w)) as Ho.
  simpl in Ho.
  assert (Hv : promise (handle w (run w pre (started w)) ev) =
                 verdict toString new_ShellError (command w) (stdout_listener w) pre ev).
  { destruct ev as [chunk|chunk|error|exitCode|]; simpl in *;
      unfold on_error, on_close, on_timeout; try discriminate.
    - simpl. now rewrite Hp.
    - destruct (exitCode =? 0); simpl; rewrite Hp; simpl; [|reflexivity].
      rewrite Ho. destruct (stdout_listener w); [|reflexivity].
      now destruct (last (stdout_chunks pre)).
    - rewrite Ht, Hev. simpl. now rewrite Hp. }
  rewrite run_app, run_cons, run_settled; [exact Hv|].
  rewrite Hv. destruct ev as [chunk|chunk|error|exitCode|]; simpl in *;
    try discriminate; try reflexivity.
  now destruct (exitCode =? 0).
Qed.

End Facts.
End OutcomeFacts.

(** ** Further properties of the error class *)

(** Whatever it is built from, the message of a [ShellError] is one line. *)
Lemma V1_message_single_line raw :
  Js.single_line (message (V1Error.new_ShellError raw)).
Proof.
  rewrite ErrorFacts.V1_message. destruct raw as [|c raw]; simpl Js.truthy_string.
  - intros [].
  - apply (JsFacts.split_first_piece (String c raw)).
Qed.

Lemma V2_message_single_line raw :
  Js.single_line (message (V2Error.new_ShellError raw)).
Proof. rewrite ErrorFacts.V2_message. apply V1_message_single_line. Qed.

(** X1: building a [ShellError] from the message of a [ShellError] gives the
    same error again, in both revisions: the cut at the first line feed is
    idempotent. *)
Theorem ShellError_is_idempotent (msg : string) :
  V1Error.new_ShellError (message (V1Error.new_ShellError msg)) =
    V1Error.new_ShellError msg /\
  V2Error.new_ShellError (message (V2Error.new_ShellError msg)) =
    V2Error.new_ShellError msg.
Proof.
  split.
  - now rewrite (ErrorFacts.V1_single_line _ (V1_message_single_line msg)).
  - now rewrite (ErrorFacts.V2_single_line _ (V2_message_single_line msg)).
Qed.

(** ** Further properties of the asynchronous runner *)

(** X2: in both revisions the promise is decided by the first settling event
    (an error event, a close event, or the expiry of the timer when a timeout
    is set) and by the standard-output chunks before it: after events that do
    not settle, a settling event leaves the promise at the value or error its
    handler passes to [resolve] or [reject], whatever events follow. *)
Theorem first_settling_event_decides_the_promise toString setup command :
  (forall (options : V1.INormalizedShellOptions.t) pre ev post,
      Forall (fun e =>
                Trace.settles
                  (Js.truthy_opt Js.truthy_number (V1.INormalizedShellOptions.timeout options))
                  e = false) pre ->
      Trace.settles
        (Js.truthy_opt Js.truthy_number (V1.INormalizedShellOptions.timeout options))
        ev = true ->
      Async.promise (V1.settle toString command options (pre ++ ev :: post)) =
        Outcome.verdict toString V1Error.new_ShellError command
          (Node.stdout (Node.spawn command (V1.spawnOptions options))) pre ev) /\
  (forall (options : V2.INormalizedShellOptions.t) pre ev post,
      Forall (fun e =>
                Trace.settles
                  (Js.truthy_opt Js.truthy_number (V2.INormalizedShellOptions.timeout options))
                  e = false) pre ->
      Trace.settles
        (Js.truthy_opt Js.truthy_number (V2.INormalizedShellOptions.timeout options))
        ev = true ->
      Async.promise (V2.settle toString setup command options (pre ++ ev :: post)) =
        Outcome.verdict toString V2Error.new_ShellError command
          (V2.stdout
             (setup options
                (V2.INormalizedShellOptions.spawn options command (V2.spawnOptions options))))
          pre ev).
Proof.
  split; intros options pre ev post Hquiet Hsettles.
  - rewrite V1_settle_run.
    apply (OutcomeFacts.first_settling_event_decides toString V1Error.new_ShellError
             (V1.shellAsync command options).1 pre ev post Hquiet Hsettles).
  - rewrite V2_settle_run.
    apply (OutcomeFacts.first_settling_event_decides toString V2Error.new_ShellError
             (V2.shellAsync setup command options).1 pre ev post Hquiet Hsettles).
Qed.

Lemma first_settling_event_decides_the_promise_witness :
  Async.promise
    (V1.settle Examples.decode "make"
       (Inputs.v1_normalized (Node.StdioString Node.Pipe) (Some 500) None)
       ([Node.StdoutData (Examples.bytes "cc"); Node.StderrData (Examples.bytes "warn")]
          ++ Node.ProcessClose 2 :: [Node.TimerFired; Node.ProcessError "late"])) =
    Rejected {| name := "Error"; message := "Command failed: make with exit code 2" |}.
Proof.
  apply (proj1 (first_settling_event_decides_the_promise
                  Examples.decode Examples.setupStdoutStderrStreams "make")
           (Inputs.v1_normalized (Node.StdioString Node.Pipe) (Some 500) None)
           [Node.StdoutData (Examples.bytes "cc"); Node.StderrData (Examples.bytes "warn")]
           (Node.ProcessClose 2)
           [Node.TimerFired; Node.ProcessError "late"]).
  - repeat constructor.
  - reflexivity.
Defined.

(** X3: in both revisions an error event that finds the promise pending
    rejects it with the error built from
    [Failed to start command: <command>; <error>]; its message begins with
    ["Failed to start command: "], and when the command and the error text
    have no line feed it is that whole text, which contains both. *)
Theorem error_event_rejects toString setup command error :
  let raw := "Failed to start command: " +:+ command +:+ "; " +:+ error in
  (forall (options : V1.INormalizedShellOptions.t) pre post,
      Async.promise (V1.settle toString command options pre) = Pending ->
      Async.promise (V1.settle toString command options (pre ++ Node.ProcessError error :: post)) =
        Rejected (V1Error.new_ShellError raw)) /\
  (forall (options : V2.INormalizedShellOptions.t) pre post,
      Async.promise (V2.settle toString setup command options pre) = Pending ->
      Async.promise (V2.settle toString setup command options (pre ++ Node.ProcessError error :: post)) =
        Rejected (V2Error.new_ShellError raw)) /\
  Js.begins_with (message (V1Error.new_ShellError raw)) "Failed to start command: " /\
  Js.begins_with (message (V2Error.new_ShellError raw)) "Failed to start command: " /\
  (Js.single_line command -> Js.single_line error ->
   V1Error.new_ShellError raw = {| name := "Error"; message := raw |} /\
   V2Error.new_ShellError raw = {| name := "ShellError"; message := raw |} /\
   Js.contains raw command /\ Js.contains raw error).
Proof.
  intros raw.
  assert (Hhead : Js.single_line "Failed to start command: ").
  { unfold Js.single_line, Js.chars. simpl.
    intros H. repeat (destruct H as [H|H]; [discriminate H|]). exact H. }
  split; [|split; [|split; [|split; [|]]]].
  - intros options pre post Hpending. rewrite !V1_settle_run in *.
    apply InvocationFacts.pending_iff in Hpending.
    apply (OutcomeFacts.first_settling_event_decides toString V1Error.new_ShellError
             (V1.shellAsync command options).1 pre (Node.ProcessError error) post
             Hpending eq_refl).
  - intros options pre post Hpending. rewrite !V2_settle_run in *.
    apply InvocationFacts.pending_iff in Hpending.
    apply (OutcomeFacts.first_settling_event_decides toString V2Error.new_ShellError
             (V2.shellAsync setup command options).1 pre (Node.ProcessError error) post
             Hpending eq_refl).
  - now apply ErrorFacts.V1_keeps_prefix.
  - rewrite ErrorFacts.V2_message. now apply ErrorFacts.V1_keeps_prefix.
  - intros Hcommand Herror.
    assert (Hraw : Js.single_line raw).
    { unfold raw. rewrite !JsFacts.single_line_app. repeat split; auto.
      unfold Js.single_line, Js.chars. simpl.
      intros H. repeat (destruct H as [H|H]; [discriminate H|]). exact H. }
    split; [now apply ErrorFacts.V1_single_line|].
    split; [now apply ErrorFacts.V2_single_line|].
    split; [apply JsFacts.contains_middle|].
    unfold raw. rewrite <- !JsFacts.app_assoc_s. apply JsFacts.contains_end.
Qed.

Lemma error_event_rejects_witness :
  Async.promise
    (V2.settle Examples.decode Examples.setupStdoutStderrStreams "nosuch"
       (V2.normalize Examples.process (Examples.throwing "" None)
          (Examples.v2_options true None None None))
       ([] ++ Node.ProcessError "Error: spawn ENOENT" :: [Node.ProcessClose (-2)])) =
    Rejected {| name := "ShellError";
                message := "Failed to start command: nosuch; Error: spawn ENOENT" |}.
Proof.
  apply (proj1 (proj2 (error_event_rejects
                         Examples.decode Examples.setupStdoutStderrStreams
                         "nosuch" "Error: spawn ENOENT"))
           (V2.normalize Examples.process (Examples.throwing "" None)
              (Examples.v2_options true None None None))
           [] [Node.ProcessClose (-2)]).
  reflexivity.
Defined.

(** X4: in both revisions, when a timeout is set, [kill()] is called exactly
    when the timer callback runs, once, whether or not the child has closed
    before: the timer is never cancelled, so after a close event the expiry of
    the timer still kills, while the promise keeps the outcome of the
    close. *)
Theorem timer_kills_even_after_close toString setup command :
  (forall (options : V1.INormalizedShellOptions.t) events,
      Js.truthy_opt Js.truthy_number (V1.INormalizedShellOptions.timeout options) = true ->
      Async.kills (V1.settle toString command options events) =
        if Outcome.timer_fired events then 1%nat else 0%nat) /\
  (forall (options : V2.INormalizedShellOptions.t) events,
      Js.truthy_opt Js.truthy_number (V2.INormalizedShellOptions.timeout options) = true ->
      Async.kills (V2.settle toString setup command options events) =
        if Outcome.timer_fired events then 1%nat else 0%nat) /\
  (forall (options : V1.INormalizedShellOptions.t) pre exitCode post,
      Async.promise (V1.settle toString command options pre) = Pending ->
      Async.promise
        (V1.settle toString command options
           (pre ++ Node.ProcessClose exitCode :: Node.TimerFired :: post)) =
        Async.promise (V1.settle toString command options (pre ++ [Node.ProcessClose exitCode]))) /\
  (forall (options : V2.INormalizedShellOptions.t) pre exitCode post,
      Async.promise (V2.settle toString setup command options pre) = Pending ->
      Async.promise
        (V2.settle toString setup command options
           (pre ++ Node.ProcessClose exitCode :: Node.TimerFired :: post)) =
        Async.promise
          (V2.settle toString setup command options (pre ++ [Node.ProcessClose exitCode]))).
Proof.
  split; [|split; [|split]].
  - intros options events Hset. rewrite V1_settle_run, OutcomeFacts.run_kills.
    simpl. rewrite Hset. simpl. now destruct (Outcome.timer_fired events).
  - intros options events Hset. rewrite V2_settle_run, OutcomeFacts.run_kills.
    simpl. rewrite Hset. simpl. now destruct (Outcome.timer_fired events).
  - intros options pre exitCode post Hpending. rewrite !V1_settle_run in *.
    apply InvocationFacts.pending_iff in Hpending.
    rewrite (OutcomeFacts.first_settling_event_decides _ _ _ pre
               (Node.ProcessClose exitCode) (Node.TimerFired :: post) Hpending eq_refl).
    now rewrite (OutcomeFacts.first_settling_event_decides _ _ _ pre
                   (Node.ProcessClose exitCode) [] Hpending eq_refl).
  - intros options pre exitCode post Hpending. rewrite !V2_settle_run in *.
    apply InvocationFacts.pending_iff in Hpending.
    rewrite (OutcomeFacts.first_settling_event_decides _ _ _ pre
               (Node.ProcessClose exitCode) (Node.TimerFired :: post) Hpending eq_refl).
    now rewrite (OutcomeFacts.first_settling_event_decides _ _ _ pre
                   (Node.ProcessClose exitCode) [] Hpending eq_refl).
Qed.

Lemma timer_kills_even_after_close_witness :
  Async.kills
    (V1.settle Examples.decode "true"
       (Inputs.v1_normalized (Node.StdioString Node.Inherit) (Some 1000) None)
       [Node.ProcessClose 0; Node.TimerFired]) = 1%nat.
Proof.
  apply (proj1 (timer_kills_even_after_close
                  Examples.decode Examples.setupStdoutStderrStreams "true")
           (Inputs.v1_normalized (Node.StdioString Node.Inherit) (Some 1000) None)
           [Node.ProcessClose 0; Node.TimerFired]).
  reflexivity.
Defined.

(** X5: in both revisions, when no timeout is given or the timeout is 0 (a
    falsy number), no timer is set: the child is never killed, and the state of
    the invocation is what it is without any expiry of a timer. *)
Theorem no_timeout_never_kills toString setup command :
  (forall (options : V1.INormalizedShellOptions.t) events,
      Js.truthy_opt Js.truthy_number (V1.INormalizedShellOptions.timeout options) = false ->
      Async.kills (V1.settle toString command options events) = 0%nat /\
      V1.settle toString command options events =
        V1.settle toString command options (Outcome.without_timer events)) /\
  (forall (options : V2.INormalizedShellOptions.t) events,
      Js.truthy_opt Js.truthy_number (V2.INormalizedShellOptions.timeout options) = false ->
      Async.kills (V2.settle toString setup command options events) = 0%nat /\
      V2.settle toString setup command options events =
        V2.settle toString setup command options (Outcome.without_timer events)).
Proof.
  split; intros options events Hunset.
  - rewrite !V1_settle_run, OutcomeFacts.run_kills. simpl. rewrite Hunset. split.
    + reflexivity.
    + now apply OutcomeFacts.run_without_timer.
  - rewrite !V2_settle_run, OutcomeFacts.run_kills. simpl. rewrite Hunset. split.
    + reflexivity.
    + now apply OutcomeFacts.run_without_timer.
Qed.

Lemma no_timeout_never_kills_witness :
  Async.kills
    (V1.settle Examples.decode "sleep 1"
       (Inputs.v1_normalized (Node.StdioString Node.Inherit) (Some 0) None)
       [Node.TimerFired; Node.ProcessClose 0]) = 0%nat /\
  V1.settle Examples.decode "sleep 1"
    (Inputs.v1_normalized (Node.StdioString Node.Inherit) (Some 0) None)
    [Node.TimerFired; Node.ProcessClose 0] =
  V1.settle Examples.decode "sleep 1"
    (Inputs.v1_normalized (Node.StdioString Node.Inherit) (Some 0) None)
    [Node.ProcessClose 0].
Proof.
  apply (proj1 (no_timeout_never_kills
                  Examples.decode Examples.setupStdoutStderrStreams "sleep 1")
           (Inputs.v1_normalized (Node.StdioString Node.Inherit) (Some 0) None)
           [Node.TimerFired; Node.ProcessClose 0]).
  reflexivity.
Defined.

(** X6: in the first revision data on the child's standard error never
    reaches the result: the promise, the captured output, the kill count and
    what is written to the parent's standard output are what they are without
    the standard-error events (which, with a prefix, are written to the
    parent's standard error and nowhere else). *)
Theorem stderr_never_reaches_the_result toString command
  (options : V1.INormalizedShellOptions.t) events :
  Outcome.agree_but_stderr
    (V1.settle toString command options events)
    (V1.settle toString command options (Outcome.without_stderr events)).
Proof.
  rewrite !V1_settle_run. apply OutcomeFacts.run_without_stderr.
  repeat split.
Qed.

(** ** Further properties of the first revision *)

(** X7: with a non-empty prefix the child is spawned with all streams piped
    whatever [stdio] the caller chose, so the ['data'] listener is attached;
    and a close with exit code 0 that finds the promise pending resolves it
    with the text of the last chunk as the child emitted it, without the
    prefix that the parent's standard output receives. *)
Theorem prefix_pipes_and_resolves_unprefixed toString command
  (options : V1.INormalizedShellOptions.t) (prefix : string) :
  V1.INormalizedShellOptions.prefix options = Some prefix ->
  prefix <> EmptyString ->
  Node.spawn_stdio (V1.spawnOptions options) = Node.StdioString Node.Pipe /\
  Node.spawn_shell (V1.spawnOptions options) = true /\
  (forall pre post,
      Async.promise (V1.settle toString command options pre) = Pending ->
      Async.promise (V1.settle toString command options (pre ++ Node.ProcessClose 0 :: post)) =
        Resolved (toString <$> last (Trace.stdout_chunks pre))).
Proof.
  intros Hprefix Hne.
  assert (Hstdio : Node.spawn_stdio (V1.spawnOptions options) = Node.StdioString Node.Pipe).
  { unfold V1.spawnOptions. simpl. rewrite Hprefix. simpl.
    destruct prefix; [contradiction|reflexivity]. }
  split; [exact Hstdio|]. split; [reflexivity|].
  intros pre post Hpending. rewrite !V1_settle_run in *.
  rewrite (InvocationFacts.close_zero_resolves _ _ _ pre post Hpending).
  change (Async.stdout_listener (V1.shellAsync command options).1)
    with (Node.is_pipe (Node.disposition (Node.spawn_stdio (V1.spawnOptions options)) 1)).
  now rewrite Hstdio.
Qed.

Lemma prefix_pipes_and_resolves_unprefixed_witness :
  Node.spawn_stdio
    (V1.spawnOptions (Inputs.v1_normalized (Node.StdioString Node.Ignore) None (Some "[a]"))) =
    Node.StdioString Node.Pipe /\
  Async.promise
    (V1.settle Examples.decode "echo x; echo y"
       (Inputs.v1_normalized (Node.StdioString Node.Ignore) None (Some "[a]"))
       ([Node.StdoutData (Examples.bytes "x"); Node.StdoutData (Examples.bytes "y")]
          ++ Node.ProcessClose 0 :: [])) = Resolved (Some "y").
Proof.
  destruct (prefix_pipes_and_resolves_unprefixed Examples.decode "echo x; echo y"
              (Inputs.v1_normalized (Node.StdioString Node.Ignore) None (Some "[a]"))
              "[a]" eq_refl ltac:(discriminate)) as (Hstdio & _ & Hresolves).
  split; [exact Hstdio|].
  apply (Hresolves [Node.StdoutData (Examples.bytes "x"); Node.StdoutData (Examples.bytes "y")] []).
  reflexivity.
Defined.

(** X8: without a prefix (none, or the empty string) the runner writes
    nothing to the parent's streams, the child gets the caller's [stdio]
    unchanged, and a close with exit code 0 that finds the promise pending
    resolves it with the last chunk only if the caller's [stdio] pipes the
    child's standard output, and with [null] otherwise. *)
Theorem without_prefix_nothing_is_forwarded toString command
  (options : V1.INormalizedShellOptions.t) :
  Js.truthy_opt Js.truthy_string (V1.INormalizedShellOptions.prefix options) = false ->
  Node.spawn_stdio (V1.spawnOptions options) = V1.INormalizedShellOptions.stdio options /\
  (forall events,
      Async.process_stdout (V1.settle toString command options events) = [] /\
      Async.process_stderr (V1.settle toString command options events) = []) /\
  (forall pre post,
      Async.promise (V1.settle toString command options pre) = Pending ->
      Async.promise (V1.settle toString command options (pre ++ Node.ProcessClose 0 :: post)) =
        Resolved (if Node.is_pipe
                       (Node.disposition (V1.INormalizedShellOptions.stdio options) 1)
                  then toString <$> last (Trace.stdout_chunks pre)
                  else None)).
Proof.
  intros Hprefix.
  assert (Hstdio : Node.spawn_stdio (V1.spawnOptions options) =
                     V1.INormalizedShellOptions.stdio options).
  { unfold V1.spawnOptions. simpl. now rewrite Hprefix. }
  assert (Hpipes : Async.prefix_pipes (V1.shellAsync command options).1 = None).
  { unfold V1.shellAsync. simpl. now rewrite Hprefix. }
  split; [exact Hstdio|]. split.
  - intros events.
    rewrite V1_settle_run, AsyncFacts.run_process_stdout, AsyncFacts.run_process_stderr.
    now rewrite Hpipes.
  - intros pre post Hpending. rewrite !V1_settle_run in *.
    rewrite (InvocationFacts.close_zero_resolves _ _ _ pre post Hpending).
    change (Async.stdout_listener (V1.shellAsync command options).1)
      with (Node.is_pipe (Node.disposition (Node.spawn_stdio (V1.spawnOptions options)) 1)).
    now rewrite Hstdio.
Qed.

Lemma without_prefix_nothing_is_forwarded_witness :
  Async.process_stdout
    (V1.settle Examples.decode "echo x"
       (Inputs.v1_normalized (Node.StdioArray [Node.Inherit; Node.Pipe]) None (Some ""))
       [Node.StdoutData (Examples.bytes "x"); Node.ProcessClose 0]) = [] /\
  Async.promise
    (V1.settle Examples.decode "echo x"
       (Inputs.v1_normalized (Node.StdioArray [Node.Inherit; Node.Pipe]) None (Some ""))
       ([Node.StdoutData (Examples.bytes "x")] ++ Node.ProcessClose 0 :: [])) =
    Resolved (Some "x").
Proof.
  destruct (without_prefix_nothing_is_forwarded Examples.decode "echo x"
              (Inputs.v1_normalized (Node.StdioArray [Node.Inherit; Node.Pipe]) None (Some ""))
              eq_refl) as (_ & Hnothing & Hresolves).
  split.
  - apply (Hnothing [Node.StdoutData (Examples.bytes "x"); Node.ProcessClose 0]).
  - apply (Hresolves [Node.StdoutData (Examples.bytes "x")] []). reflexivity.
Defined.

(** ** Further properties of both runners *)

(** X9: every [ShellError] the runners produce has a message of one line.
    Once a settling event has come (an error event, a close event, or the
    expiry of the timer when a timeout is set) the promise is resolved or is
    rejected with an error whose message is one line, whatever the command,
    the error text and the other events are; and the error the synchronous
    runner throws has a message of one line whatever [execSync] threw and
    whatever the transform returns.  (An error thrown by [spawn] itself comes
    before any event and is not among these.) *)
Theorem every_error_message_is_one_line toString transformString setup command :
  (forall (options : V1.INormalizedShellOptions.t) pre ev post,
      Forall (fun e =>
                Trace.settles
                  (Js.truthy_opt Js.truthy_number (V1.INormalizedShellOptions.timeout options))
                  e = false) pre ->
      Trace.settles
        (Js.truthy_opt Js.truthy_number (V1.INormalizedShellOptions.timeout options))
        ev = true ->
      match Async.promise (V1.settle toString command options (pre ++ ev :: post)) with
      | Pending => False
      | Resolved _ => True
      | Rejected e => Js.single_line (message e)
      end) /\
  (forall (options : V2.INormalizedShellOptions.t) pre ev post,
      Forall (fun e =>
                Trace.settles
                  (Js.truthy_opt Js.truthy_number (V2.INormalizedShellOptions.timeout options))
                  e = false) pre ->
      Trace.settles
        (Js.truthy_opt Js.truthy_number (V2.INormalizedShellOptions.timeout options))
        ev = true ->
      match Async.promise (V2.settle toString setup command options (pre ++ ev :: post)) with
      | Pending => False
      | Resolved _ => True
      | Rejected e => Js.single_line (message e)
      end) /\
  (forall execSync (options : V1.INormalizedShellOptions.t) e,
      V1.shellSync execSync toString command options = inl e ->
      Js.single_line (message e)) /\
  (forall (options : V2.INormalizedShellOptions.t) e,
      V2.result (V2.shellSync toString transformString command options) = inl e ->
      Js.single_line (message e)).
Proof.
  split; [|split; [|split]].
  - intros options pre ev post Hquiet Hsettles. rewrite V1_settle_run.
    rewrite (OutcomeFacts.first_settling_event_decides toString V1Error.new_ShellError
               (V1.shellAsync command options).1 pre ev post Hquiet Hsettles).
    destruct ev as [chunk|chunk|error|exitCode|]; simpl in Hsettles;
      try discriminate Hsettles; unfold Outcome.verdict.
    + apply V1_message_single_line.
    + destruct (exitCode =? 0); [exact I|apply V1_message_single_line].
    + apply V1_message_single_line.
  - intros options pre ev post Hquiet Hsettles. rewrite V2_settle_run.
    rewrite (OutcomeFacts.first_settling_event_decides toString V2Error.new_ShellError
               (V2.shellAsync setup command options).1 pre ev post Hquiet Hsettles).
    destruct ev as [chunk|chunk|error|exitCode|]; simpl in Hsettles;
      try discriminate Hsettles; unfold Outcome.verdict.
    + apply V2_message_single_line.
    + destruct (exitCode =? 0); [exact I|apply V2_message_single_line].
    + apply V2_message_single_line.
  - intros execSync options e. unfold V1.shellSync.
    destruct (execSync command (V1.execSyncOptions options)) as [value|error_message status].
    + destruct (Node.truthy value); discriminate.
    + intros [= <-]. apply V1_message_single_line.
  - intros options e. unfold V2.shellSync.
    destruct (V2.INormalizedShellOptions.execSync options command (V2.execSyncOptions options))
      as [value|error_message status].
    + destruct (Node.truthy value); discriminate.
    + simpl. intros [= <-]. apply V2_message_single_line.
Qed.

Lemma every_error_message_is_one_line_witness :
  V2.result
    (V2.shellSync Examples.decode Examples.transformString "ls nowhere"
       (V2.normalize Examples.process
          (Examples.throwing
             ("Command failed: ls nowhere" +:+ String Js.LF "ls: nowhere: No such file")
             (Some 2))
          (Examples.v2_options false None None None))) =
    inl {| name := "ShellError"; message := "Command failed: ls nowhere" |} /\
  Js.single_line "Command failed: ls nowhere" /\
  match Async.promise
          (V1.settle Examples.decode Examples.two_lines
             (Inputs.v1_normalized (Node.StdioString Node.Inherit) None None)
             ([] ++ Node.ProcessClose 1 :: [])) with
  | Pending => False
  | Resolved _ => True
  | Rejected e => Js.single_line (message e)
  end.
Proof.
  split; [reflexivity|]. split.
  - apply (proj2 (proj2 (proj2 (every_error_message_is_one_line
                                  Examples.decode Examples.transformString
                                  Examples.setupStdoutStderrStreams "ls nowhere")))
             (V2.normalize Examples.process
                (Examples.throwing
                   ("Command failed: ls nowhere" +:+ String Js.LF "ls: nowhere: No such file")
                   (Some 2))
                (Examples.v2_options false None None None))
             {| name := "ShellError"; message := "Command failed: ls nowhere" |}).
    reflexivity.
  - apply (proj1 (every_error_message_is_one_line
                    Examples.decode Examples.transformString
                    Examples.setupStdoutStderrStreams Examples.two_lines)
             (Inputs.v1_normalized (Node.StdioString Node.Inherit) None None)
             [] (Node.ProcessClose 1) []).
    + constructor.
    + reflexivity.
Defined.

(** ** Further properties of the second revision *)

(** X10: called without [async], [shell] runs the command synchronously, and
    what it writes to the parent's standard output is exactly the text it
    returns, once: nothing when [silent] is set, nothing when it returns
    [null], and nothing when it throws. *)
Theorem sync_echo_is_the_returned_text process execSync toString transformString setup
  command (options : V2.IShellOptions.t) :
  Js.truthy_opt Js.truthy_bool (V2.IShellOptions.async options) = false ->
  exists out,
    V2.shell process execSync toString transformString setup command options =
      V2.SyncResult out /\
    V2.written out =
      match V2.result out with
      | inr (Some text) =>
          if Js.truthy_opt Js.truthy_bool (V2.IShellOptions.silent options)
          then [] else [text]
      | _ => []
      end.
Proof.
  intros Hsync.
  exists (V2.shellSync toString transformString command
            (V2.normalize process execSync options)).
  split.
  - unfold V2.shell. simpl. now rewrite Hsync.
  - unfold V2.shellSync.
    destruct (V2.INormalizedShellOptions.execSync _ command _) as [value|error_message status];
      [|reflexivity].
    destruct (Node.truthy value); reflexivity.
Qed.

Lemma sync_echo_is_the_returned_text_witness :
  exists out,
    V2.shell Examples.process (Examples.returning (Node.BufferValue (Examples.bytes "v1.2")))
      Examples.decode Examples.transformString Examples.setupStdoutStderrStreams
      "git describe" (Inputs.v2_sync None None None None) = V2.SyncResult out /\
    V2.written out =
      match V2.result out with
      | inr (Some text) =>
          if Js.truthy_opt Js.truthy_bool
               (V2.IShellOptions.silent (Inputs.v2_sync None None None None))
          then [] else [text]
      | _ => []
      end.
Proof.
  apply (sync_echo_is_the_returned_text Examples.process
           (Examples.returning (Node.BufferValue (Examples.bytes "v1.2")))
           Examples.decode Examples.transformString Examples.setupStdoutStderrStreams
           "git describe" (Inputs.v2_sync None None None None)).
  reflexivity.
Defined.

(** X11: the normalized disposition gives the child's standard output and
    standard error the same mode: a pipe unless [nopipe] is set, and with
    [nopipe] either ["ignore"] when [silent] is set or ["inherit"]; [silent]
    alone leaves both piped.  The synchronous and the asynchronous runner pass
    the same disposition on, and with the default [spawn] the child has
    [stdout] and [stderr] streams exactly when [nopipe] is not set. *)
Theorem streams_are_piped_unless_nopipe process execSync command
  (options : V2.IShellOptions.t) :
  let normalized := V2.normalize process execSync options in
  let stdio := Node.StdioArray (V2.INormalizedShellOptions.stdio normalized) in
  let nopipe := Js.truthy_opt Js.truthy_bool (V2.IShellOptions.nopipe options) in
  let silent := Js.truthy_opt Js.truthy_bool (V2.IShellOptions.silent options) in
  Node.disposition stdio 1 = Node.disposition stdio 2 /\
  Node.disposition stdio 1 =
    (if nopipe then if silent then Node.Ignore else Node.Inherit else Node.Pipe) /\
  Node.spawn_stdio (V2.spawnOptions normalized) = stdio /\
  Node.exec_stdio (V2.execSyncOptions normalized) = stdio /\
  (V2.IShellOptions.spawn options = None ->
   let child := V2.INormalizedShellOptions.spawn normalized command
                  (V2.spawnOptions normalized) in
   Node.stdout child = negb nopipe /\ Node.stderr child = negb nopipe).
Proof.
  unfold V2.normalize. simpl.
  destruct (Js.truthy_opt Js.truthy_bool (V2.IShellOptions.nopipe options));
    [destruct (Js.truthy_opt Js.truthy_bool (V2.IShellOptions.silent options))|];
    (split; [reflexivity|]; split; [reflexivity|]; split; [reflexivity|];
     split; [reflexivity|]; intros ->; split; reflexivity).
Qed.

Lemma streams_are_piped_unless_nopipe_witness :
  Node.stdout
    (V2.INormalizedShellOptions.spawn
       (V2.normalize Examples.process (Examples.throwing "" None)
          (Inputs.v2_sync None None (Some true) None))
       "ls"
       (V2.spawnOptions
          (V2.normalize Examples.process (Examples.throwing "" None)
             (Inputs.v2_sync None None (Some true) None)))) = true.
Proof.
  apply (proj2 (proj2 (proj2 (proj2 (streams_are_piped_unless_nopipe Examples.process
                                       (Examples.throwing "" None) "ls"
                                       (Inputs.v2_sync None None (Some true) None))))) eq_refl).
Defined.

(** X12: an environment supplied by the caller replaces the inherited one
    instead of being merged with it: the normalized environment is then the
    same whatever the parent process is, no variable of the parent is added,
    every variable of the caller's environment other than [FORCE_COLOR] is
    looked up as in the caller's environment, and a [FORCE_COLOR] of the
    caller keeps its value. *)
Theorem caller_env_replaces_inherited_env process process' execSync execSync'
  (env : gmap string string)
  (options1 : V1.IShellOptions.t) (options2 : V2.IShellOptions.t) :
  V1.IShellOptions.env options1 = Some env ->
  V2.IShellOptions.env options2 = Some env ->
  let env1 := V1.INormalizedShellOptions.env (V1.normalize process options1) in
  let env2 := V2.INormalizedShellOptions.env (V2.normalize process execSync options2) in
  env1 = V1.INormalizedShellOptions.env (V1.normalize process' options1) /\
  env2 = V2.INormalizedShellOptions.env (V2.normalize process' execSync' options2) /\
  env1 = env2 /\
  (forall k, k <> "FORCE_COLOR" -> env1 !! k = env !! k) /\
  (forall v, env !! "FORCE_COLOR" = Some v -> env1 !! "FORCE_COLOR" = Some v) /\
  (env !! "FORCE_COLOR" = None -> env1 !! "FORCE_COLOR" = Some "1").
Proof.
  intros H1 H2. unfold V1.normalize, V2.normalize. simpl. rewrite H1, H2.
  repeat split.
  - intros k Hk. rewrite lookup_with_color.
    destruct (env !! k); [reflexivity|]. now rewrite decide_False.
  - intros v Hv. now rewrite lookup_with_color, Hv.
  - intros Hnone. now rewrite lookup_with_color, Hnone.
Qed.

Lemma caller_env_replaces_inherited_env_witness :
  V1.INormalizedShellOptions.env
    (V1.normalize Examples.process (Inputs.v1_env (Some {[ "FORCE_COLOR" := "0" ]})))
    !! "PATH" = None /\
  V1.INormalizedShellOptions.env
    (V1.normalize Examples.process (Inputs.v1_env (Some {[ "FORCE_COLOR" := "0" ]})))
    !! "FORCE_COLOR" = Some "0".
Proof.
  destruct (caller_env_replaces_inherited_env Examples.process Inputs.other_process
              (Examples.throwing "" None) (Examples.throwing "" None)
              {[ "FORCE_COLOR" := "0" ]}
              (Inputs.v1_env (Some {[ "FORCE_COLOR" := "0" ]}))
              (Inputs.v2_sync (Some {[ "FORCE_COLOR" := "0" ]}) None None None)
              eq_refl eq_refl) as (_ & _ & _ & Hother & Hcolor & _).
  split.
  - rewrite (Hother "PATH") by discriminate. apply lookup_singleton_ne. discriminate.
  - apply Hcolor. apply lookup_singleton_eq.
Defined.

(** X13: the hooks in the options replace the ambient primitives: when the
    caller supplies both [parentProcess] and [execSync], the normalized
    options, and so everything [shell] does, are the same whatever the global
    [process] and the imported [execSync] are; in synchronous mode the result
    is that of the supplied [execSync]. *)
Theorem supplied_hooks_replace_the_ambient_ones process process' execSync execSync'
  toString transformString setup command (options : V2.IShellOptions.t)
  (parent : Node.Process) (hook : Node.ExecSync) :
  V2.IShellOptions.parentProcess options = Some parent ->
  V2.IShellOptions.execSync options = Some hook ->
  V2.normalize process execSync options = V2.normalize process' execSync' options /\
  V2.shell process execSync toString transformString setup command options =
    V2.shell process' execSync' toString transformString setup command options /\
  V2.INormalizedShellOptions.parentProcess (V2.normalize process execSync options) = parent /\
  (forall error_message status,
      Js.truthy_opt Js.truthy_bool (V2.IShellOptions.async options) = false ->
      V2.IShellOptions.transform options = None ->
      hook command (V2.execSyncOptions (V2.normalize process execSync options)) =
        Node.Throws error_message status ->
      V2.shell process execSync toString transformString setup command options =
        V2.SyncResult {| V2.result := inl (V2Error.new_ShellError error_message);
                         V2.written := [] |}).
Proof.
  intros Hparent Hhook.
  assert (Hsame : V2.normalize process execSync options =
                    V2.normalize process' execSync' options).
  { unfold V2.normalize. now rewrite Hparent, Hhook. }
  split; [exact Hsame|]. split; [|split].
  - unfold V2.shell. now rewrite Hsame.
  - unfold V2.normalize. simpl. now rewrite Hparent.
  - intros error_message status Hsync Htransform Hthrows.
    unfold V2.shell.
    assert (Hasync : Js.truthy_opt Js.truthy_bool
                       (V2.INormalizedShellOptions.async
                          (V2.normalize process execSync options)) = false)
      by exact Hsync.
    rewrite Hasync. f_equal. unfold V2.shellSync.
    assert (Hcall : V2.INormalizedShellOptions.execSync
                      (V2.normalize process execSync options) = hook).
    { unfold V2.normalize. simpl. now rewrite Hhook. }
    rewrite Hcall, Hthrows.
    assert (Hnone : V2.INormalizedShellOptions.transform
                      (V2.normalize process execSync options) = None)
      by exact Htransform.
    now rewrite Hnone.
Qed.

Lemma supplied_hooks_replace_the_ambient_ones_witness :
  V2.shell Examples.process (Examples.returning Node.NullValue)
    Examples.decode Examples.transformString Examples.setupStdoutStderrStreams "false"
    {| V2.IShellOptions.cwd := None;
       V2.IShellOptions.env := None;
       V2.IShellOptions.timeout := None;
       V2.IShellOptions.async := None;
       V2.IShellOptions.nopipe := None;
       V2.IShellOptions.silent := None;
       V2.IShellOptions.transform := None;
       V2.IShellOptions.parentProcess := Some Inputs.other_process;
       V2.IShellOptions.spawn := None;
       V2.IShellOptions.execSync := Some (Examples.throwing "boom" (Some 1)) |} =
    V2.SyncResult {| V2.result := inl {| name := "ShellError"; message := "boom" |};
                     V2.written := [] |}.
Proof.
  apply (proj2 (proj2 (proj2
           (supplied_hooks_replace_the_ambient_ones
              Examples.process Inputs.other_process
              (Examples.returning Node.NullValue) (Examples.returning Node.NullValue)
              Examples.decode Examples.transformString Examples.setupStdoutStderrStreams
              "false"
              {| V2.IShellOptions.cwd := None;
                 V2.IShellOptions.env := None;
                 V2.IShellOptions.timeout := None;
                 V2.IShellOptions.async := None;
                 V2.IShellOptions.nopipe := None;
                 V2.IShellOptions.silent := None;
                 V2.IShellOptions.transform := None;
                 V2.IShellOptions.parentProcess := Some Inputs.other_process;
                 V2.IShellOptions.spawn := None;
                 V2.IShellOptions.execSync := Some (Examples.throwing "boom" (Some 1)) |}
              Inputs.other_process (Examples.throwing "boom" (Some 1))
              eq_refl eq_refl)))
           "boom" (Some 1) eq_refl eq_refl eq_refl).
Defined.

(** ** The timeout and the transform, from the events *)

(** With a timeout set, events that do not settle hold no expiry of the
    timer. *)
Lemma quiet_events_hold_no_timer (pre : list Node.Event) :
  Forall (fun e => Trace.settles true e = false) pre -> Node.TimerFired ∉ pre.
Proof.
  intros Hquiet Hin. rewrite Forall_forall in Hquiet.
  specialize (Hquiet _ Hin). discriminate Hquiet.
Qed.

(** What a settling event leaves is a settled promise. *)
Lemma verdict_is_settled toString new_ShellError command listener pre ev timeout_set :
  Trace.settles timeout_set ev = true ->
  settled (Outcome.verdict toString new_ShellError command listener pre ev) = true.
Proof.
  destruct ev as [chunk|chunk|error|exitCode|]; simpl; try discriminate;
    intros _; try reflexivity.
  now destruct (exitCode =? 0).
Qed.

(** C6: in both revisions, when a timeout is configured and the timer fires
    while the command is still running (only data events have come before: no
    error event, no close event and no earlier expiry), the runner kills the
    child, once, and the promise is rejected with the error built from
    ["Command timeout: "] and the command, whatever events follow; the message
    begins with ["Command timeout: "].  And once a settling event has come, be
    it the timer or another one, the promise is settled and no later event
    alters it: a promise that has settled, in whatever way, stays as it is. *)
Theorem timeout_kills_and_settles_for_good toString setup command :
  (forall (options : V1.INormalizedShellOptions.t) pre later,
      Js.truthy_opt Js.truthy_number (V1.INormalizedShellOptions.timeout options) = true ->
      Forall (fun e => Trace.settles true e = false) pre ->
      Async.kills (V1.settle toString command options (pre ++ [Node.TimerFired])) = 1%nat /\
      Async.promise (V1.settle toString command options (pre ++ Node.TimerFired :: later)) =
        Rejected (V1Error.new_ShellError ("Command timeout: " +:+ command))) /\
  (forall (options : V2.INormalizedShellOptions.t) pre later,
      Js.truthy_opt Js.truthy_number (V2.INormalizedShellOptions.timeout options) = true ->
      Forall (fun e => Trace.settles true e = false) pre ->
      Async.kills (V2.settle toString setup command options (pre ++ [Node.TimerFired])) = 1%nat /\
      Async.promise (V2.settle toString setup command options (pre ++ Node.TimerFired :: later)) =
        Rejected (V2Error.new_ShellError ("Command timeout: " +:+ command))) /\
  Js.begins_with (message (V1Error.new_ShellError ("Command timeout: " +:+ command)))
                 "Command timeout: " /\
  Js.begins_with (message (V2Error.new_ShellError ("Command timeout: " +:+ command)))
                 "Command timeout: " /\
  (forall (options : V1.INormalizedShellOptions.t) pre ev later,
      Forall (fun e =>
                Trace.settles
                  (Js.truthy_opt Js.truthy_number (V1.INormalizedShellOptions.timeout options))
                  e = false) pre ->
      Trace.settles
        (Js.truthy_opt Js.truthy_number (V1.INormalizedShellOptions.timeout options))
        ev = true ->
      settled (Async.promise (V1.settle toString command options (pre ++ [ev]))) = true /\
      Async.promise (V1.settle toString command options (pre ++ ev :: later)) =
        Async.promise (V1.settle toString command options (pre ++ [ev]))) /\
  (forall (options : V2.INormalizedShellOptions.t) pre ev later,
      Forall (fun e =>
                Trace.settles
                  (Js.truthy_opt Js.truthy_number (V2.INormalizedShellOptions.timeout options))
                  e = false) pre ->
      Trace.settles
        (Js.truthy_opt Js.truthy_number (V2.INormalizedShellOptions.timeout options))
        ev = true ->
      settled (Async.promise (V2.settle toString setup command options (pre ++ [ev]))) = true /\
      Async.promise (V2.settle toString setup command options (pre ++ ev :: later)) =
        Async.promise (V2.settle toString setup command options (pre ++ [ev]))) /\
  (forall (options : V1.INormalizedShellOptions.t) pre later,
      settled (Async.promise (V1.settle toString command options pre)) = true ->
      Async.promise (V1.settle toString command options (pre ++ later)) =
        Async.promise (V1.settle toString command options pre)) /\
  (forall (options : V2.INormalizedShellOptions.t) pre later,
      settled (Async.promise (V2.settle toString setup command options pre)) = true ->
      Async.promise (V2.settle toString setup command options (pre ++ later)) =
        Async.promise (V2.settle toString setup command options pre)).
Proof.
  split; [|split; [|split; [|split; [|split; [|split; [|split]]]]]].
  - intros options pre later Hset Hquiet. rewrite !V1_settle_run.
    assert (Hpending : Async.promise
                         (Async.run toString V1Error.new_ShellError
                            (V1.shellAsync command options).1 pre
                            (Async.started (V1.shellAsync command options).1)) = Pending).
    { apply InvocationFacts.pending_iff.
      change (Async.timeout_set (V1.shellAsync command options).1)
        with (Js.truthy_opt Js.truthy_number (V1.INormalizedShellOptions.timeout options)).
      now rewrite Hset. }
    destruct (InvocationFacts.timeout_rejects toString V1Error.new_ShellError
                (V1.shellAsync command options).1 pre later Hset
                (quiet_events_hold_no_timer pre Hquiet) Hpending)
      as (Hk & _ & Hp).
    now split.
  - intros options pre later Hset Hquiet. rewrite !V2_settle_run.
    assert (Hpending : Async.promise
                         (Async.run toString V2Error.new_ShellError
                            (V2.shellAsync setup command options).1 pre
                            (Async.started (V2.shellAsync setup command options).1)) = Pending).
    { apply InvocationFacts.pending_iff.
      change (Async.timeout_set (V2.shellAsync setup command options).1)
        with (Js.truthy_opt Js.truthy_number (V2.INormalizedShellOptions.timeout options)).
      now rewrite Hset. }
    destruct (InvocationFacts.timeout_rejects toString V2Error.new_ShellError
                (V2.shellAsync setup command options).1 pre later Hset
                (quiet_events_hold_no_timer pre Hquiet) Hpending)
      as (Hk & _ & Hp).
    now split.
  - apply ErrorFacts.V1_keeps_prefix, ErrorFacts.command_timeout_single_line.
  - rewrite ErrorFacts.V2_message.
    apply ErrorFacts.V1_keeps_prefix, ErrorFacts.command_timeout_single_line.
  - intros options pre ev later Hquiet Hsettles. rewrite !V1_settle_run.
    rewrite (OutcomeFacts.first_settling_event_decides toString V1Error.new_ShellError
               (V1.shellAsync command options).1 pre ev later Hquiet Hsettles).
    rewrite (OutcomeFacts.first_settling_event_decides toString V1Error.new_ShellError
               (V1.shellAsync command options).1 pre ev [] Hquiet Hsettles).
    split; [|reflexivity]. now apply verdict_is_settled with (timeout_set :=
      Js.truthy_opt Js.truthy_number (V1.INormalizedShellOptions.timeout options)).
  - intros options pre ev later Hquiet Hsettles. rewrite !V2_settle_run.
    rewrite (OutcomeFacts.first_settling_event_decides toString V2Error.new_ShellError
               (V2.shellAsync setup command options).1 pre ev later Hquiet Hsettles).
    rewrite (OutcomeFacts.first_settling_event_decides toString V2Error.new_ShellError
               (V2.shellAsync setup command options).1 pre ev [] Hquiet Hsettles).
    split; [|reflexivity]. now apply verdict_is_settled with (timeout_set :=
      Js.truthy_opt Js.truthy_number (V2.INormalizedShellOptions.timeout options)).
  - intros options pre later H. rewrite !V1_settle_run in *.
    now apply InvocationFacts.outcome_is_final.
  - intros options pre later H. rewrite !V2_settle_run in *.
    now apply InvocationFacts.outcome_is_final.
Qed.

Lemma timeout_kills_and_settles_for_good_witness :
  (Async.kills
     (V1.settle Examples.decode "sleep 9"
        (V1.normalize Examples.process (Examples.v1_options true (Some 100) None))
        ([Node.StdoutData (Examples.bytes "tick")] ++ [Node.TimerFired])) = 1%nat /\
   Async.promise
     (V1.settle Examples.decode "sleep 9"
        (V1.normalize Examples.process (Examples.v1_options true (Some 100) None))
        ([Node.StdoutData (Examples.bytes "tick")] ++
           Node.TimerFired :: [Node.StdoutData (Examples.bytes "tock"); Node.ProcessClose 0])) =
     Rejected {| name := "Error"; message := "Command timeout: sleep 9" |}) /\
  (Async.kills
     (V2.settle Examples.decode Examples.setupStdoutStderrStreams "sleep 9"
        (V2.normalize Examples.process (Examples.throwing "" None)
           (Examples.v2_options true (Some 100) None None))
        ([Node.StdoutData (Examples.bytes "tick")] ++ [Node.TimerFired])) = 1%nat /\
   Async.promise
     (V2.settle Examples.decode Examples.setupStdoutStderrStreams "sleep 9"
        (V2.normalize Examples.process (Examples.throwing "" None)
           (Examples.v2_options true (Some 100) None None))
        ([Node.StdoutData (Examples.bytes "tick")] ++
           Node.TimerFired :: [Node.StdoutData (Examples.bytes "tock"); Node.ProcessClose 0])) =
     Rejected {| name := "ShellError"; message := "Command timeout: sleep 9" |}).
Proof.
  split.
  - apply (proj1 (timeout_kills_and_settles_for_good
                    Examples.decode Examples.setupStdoutStderrStreams "sleep 9")
             (V1.normalize Examples.process (Examples.v1_options true (Some 100) None))
             [Node.StdoutData (Examples.bytes "tick")]
             [Node.StdoutData (Examples.bytes "tock"); Node.ProcessClose 0]).
    + reflexivity.
    + repeat constructor.
  - apply (proj1 (proj2 (timeout_kills_and_settles_for_good
                           Examples.decode Examples.setupStdoutStderrStreams "sleep 9"))
             (V2.normalize Examples.process (Examples.throwing "" None)
                (Examples.v2_options true (Some 100) None None))
             [Node.StdoutData (Examples.bytes "tick")]
             [Node.StdoutData (Examples.bytes "tock"); Node.ProcessClose 0]).
    + reflexivity.
    + repeat constructor.
Defined.




